(** * The Art of Reinforcement Learning: bookkeeping utilities

    A shallow embedding of three small utilities of the repository,

    - [chapter_14/envs/coords.py]  (class [CoordsConvertor]),
    - [chapter_13/trackers.py]     (classes [EpisodeTracker], [StepRateTracker]),
    - [chapter_10/csv_writer.py]   (class [CsvWriter]),

    together with the properties their specification states.

    Conventions of the embedding.
    - Python [int] is [Z]; rewards and clock readings, which are Python
      numbers, are carried by the rationals [Q]; a value that may be
      [np.nan] is a [pyfloat].  Python floats round and the rationals do
      not: the sums, means and quotients of the code appear in the
      statements as the code writes them, and no property below rests on
      a law of arithmetic on rewards or clock readings.
    - A Python call that may raise returns a [result]: [Ok v] or
      [Raise e] with the exception class [e].
    - [str] is [string] (ASCII); a [dict] whose key order is observable is
      an association list in insertion order, a [dict] that is only looked
      up is a [gmap]. *)

From Stdlib Require Import ZArith QArith String Ascii List Lia.
From Stdlib Require Import DecimalString DecimalZ.
From stdpp Require Import gmap strings list.

(** ** Python values and built-ins *)

Module Py.

Local Open Scope Z_scope.

(** The exception classes that the modelled code can raise. *)
Inductive exn : Set :=
| IndexError
| ValueError
| TypeError
| AttributeError
| ZeroDivisionError
| FileNotFoundError
| FileExistsError
| NotADirectoryError
| IsADirectoryError.

Inductive result (A : Type) : Type :=
| Ok (a : A)
| Raise (e : exn).

Arguments Ok {A} a.
Arguments Raise {A} e.

(** Sequencing: the first exception raised ends the computation.  The
    instances give [result] stdpp's monadic notation [x ← m; k]. *)
#[global] Instance result_ret : MRet result := fun A a => Ok a.
#[global] Instance result_bind : MBind result := fun A B k m =>
  match m with
  | Ok a => k a
  | Raise e => Raise e
  end.
#[global] Instance result_fmap : FMap result := fun A B f m =>
  match m with
  | Ok a => Ok (f a)
  | Raise e => Raise e
  end.

(** A float that is either [nan] or a number. *)
Inductive pyfloat : Type :=
| NaN
| Num (q : Q).

(** [sum(l)]: the built-in adds the items left to right, starting at [0].
    On floats every addition of the built-in rounds; the statements name
    [py_sum] of a list and never take it apart. *)
Definition py_sum (l : list Q) : Q := fold_left Qplus l 0%Q.

(** [sum(l)] on integers. *)
Definition py_sumZ (l : list Z) : Z := fold_left Z.add l 0.

(** [np.array(l).mean()]: the sum divided by the number of items; numpy
    returns [nan] (with a warning, no exception) on an empty array.  Like
    [py_sum], the statements name [np_mean] of a list and use nothing of
    its arithmetic but the [nan] of the empty array. *)
Definition np_mean (l : list Q) : pyfloat :=
  match l with
  | [] => NaN
  | _ => Num (py_sum l / inject_Z (Z.of_nat (length l)))%Q
  end.

(** [s[i]] on a string: negative indices count from the end, an index
    outside [-len(s) .. len(s)-1] raises [IndexError]. *)
Definition str_getitem (s : string) (i : Z) : result ascii :=
  let n := Z.of_nat (String.length s) in
  let j := if i <? 0 then i + n else i in
  if (0 <=? j) && (j <? n) then
    match String.get (Z.to_nat j) s with
    | Some c => Ok c
    | None => Raise IndexError
    end
  else Raise IndexError.

(** [s.index(c)] for a one-character [c]: the first position of [c],
    [ValueError] when it does not occur. *)
Fixpoint str_index_from (k : Z) (s : string) (c : ascii) : result Z :=
  match s with
  | EmptyString => Raise ValueError
  | String a s' => if Ascii.eqb a c then Ok k else str_index_from (k + 1) s' c
  end.

Definition str_index (s : string) (c : ascii) : result Z :=
  str_index_from 0 s c.

(** [s[1:]] *)
Definition str_tail (s : string) : string :=
  match s with
  | EmptyString => EmptyString
  | String _ s' => s'
  end.

(** [s.upper()] on ASCII text. *)
Definition upper_char (c : ascii) : ascii :=
  let n := nat_of_ascii c in
  if ((97 <=? n) && (n <=? 122))%nat then ascii_of_nat (n - 32) else c.

Fixpoint str_upper (s : string) : string :=
  match s with
  | EmptyString => EmptyString
  | String a s' => String (upper_char a) (str_upper s')
  end.

(** [str(n)] for an [int]: the decimal numeral, with a leading [-] for
    negative numbers. *)
Definition py_str (n : Z) : string := NilZero.string_of_int (Z.to_int n).

(** [int(s)] on a decimal numeral (digits with an optional leading [-]);
    anything else is answered with [ValueError].  Python also accepts a
    leading [+], surrounding blanks and underscores between digits; no
    string produced by the modelled code has them. *)
Definition py_int (s : string) : result Z :=
  match NilZero.int_of_string s with
  | Some d => Ok (Z.of_int d)
  | None => Raise ValueError
  end.

End Py.

Import Py.

(** ** chapter_14/envs/coords.py *)

Module CoordsConvertor.

Local Open Scope Z_scope.

Definition _SGF_COLUMNS : string :=
  "abcdefghijklmnopqrstuvwxyzABCDEFGHIJKLMNOPQRSTUVWXYZ".
Definition _GTP_COLUMNS : string := "ABCDEFGHJKLMNOPQRSTUVWXYZ".

(** A Minigo coordinate: [None] is the pass move, [Some (row, column)] a
    point of the board. *)
Definition coord : Set := option (Z * Z).

Section WithBoard.

(** [self.board_size] *)
Variable board_size : Z.

Definition from_flat (flat : Z) : result coord :=
  if flat =? board_size * board_size then Ok None
  else if board_size =? 0 then Raise ZeroDivisionError
  else Ok (Some (flat / board_size, flat mod board_size)).

Definition to_flat (c : coord) : Z :=
  match c with
  | None => board_size * board_size
  | Some (r, k) => board_size * r + k
  end.

Definition from_sgf (sgfc : option string) : result coord :=
  match sgfc with
  | None => Ok None
  | Some s =>
      if String.eqb s "" || ((board_size <=? 19) && String.eqb s "tt")
      then Ok None
      else
        c1 ← str_getitem s 1;
        row ← str_index _SGF_COLUMNS c1;
        c0 ← str_getitem s 0;
        col ← str_index _SGF_COLUMNS c0;
        Ok (Some (row, col))
  end.

Definition to_sgf (c : coord) : result string :=
  match c with
  | None => Ok ""%string
  | Some (r, k) =>
      a ← str_getitem _SGF_COLUMNS k;
      b ← str_getitem _SGF_COLUMNS r;
      Ok (String a (String b EmptyString))
  end.

Definition from_gtp (gtpc : string) : result coord :=
  let gtpc := str_upper gtpc in
  if String.eqb gtpc "PASS" then Ok None
  else
    c0 ← str_getitem gtpc 0;
    col ← str_index _GTP_COLUMNS c0;
    row_from_bottom ← py_int (str_tail gtpc);
    Ok (Some (board_size - row_from_bottom, col)).

Definition to_gtp (c : coord) : result string :=
  match c with
  | None => Ok "pass"%string
  | Some (y, x) =>
      a ← str_getitem _GTP_COLUMNS x;
      Ok (String a (py_str (board_size - y)))
  end.

End WithBoard.

End CoordsConvertor.

(** ** chapter_13/trackers.py *)

(** The [info] argument of [step]: [None], a [dict], or any other object.
    Only the entry ['episode_visited_rooms'] of a [dict] is ever read. *)
Inductive pyinfo : Type :=
| InfoNone
| InfoDict (d : gmap string Q)
| InfoOther.

Definition _is_dict (_info : pyinfo) : bool :=
  match _info with
  | InfoDict _ => true
  | _ => false
  end.

(** [info[k]] when [k in info] *)
Definition info_lookup (info : pyinfo) (k : string) : option Q :=
  match info with
  | InfoDict d => d !! k
  | _ => None
  end.

(** One call [step(reward, done, info)]. *)
Record timestep : Type := Timestep {
  ts_reward : Q;
  ts_done : bool;
  ts_info : pyinfo
}.

Module EpisodeTracker.

Local Open Scope Z_scope.

(** The attributes of a tracker once [reset] has given them values. *)
Record fields : Type := Fields {
  _num_steps_since_reset : Z;
  _episode_returns : list Q;
  _episode_steps : list Z;
  _episode_visited_rooms : list Q;
  _current_episode_rewards : list Q;
  _current_episode_step : Z
}.

(** A tracker object: [None] is the object left by [__init__], whose six
    attributes are all Python's [None]. *)
Definition t : Type := option fields.

Definition __init__ : t := None.

Definition reset (self : t) : t :=
  Some {| _num_steps_since_reset := 0;
          _episode_returns := [];
          _episode_steps := [];
          _episode_visited_rooms := [];
          _current_episode_step := 0;
          _current_episode_rewards := [] |}.

(** The visited-rooms list after the [if _is_dict(info) and ... in info]
    statement. *)
Definition append_visited_rooms (rooms : list Q) (info : pyinfo) : list Q :=
  if _is_dict info then
    match info_lookup info "episode_visited_rooms" with
    | Some v => rooms ++ [v]
    | None => rooms
    end
  else rooms.

Definition step (self : t) (reward : Q) (done : bool) (info : pyinfo)
  : result t :=
  match self with
  | None => Raise AttributeError
  | Some s =>
      let rewards := _current_episode_rewards s ++ [reward] in
      let num_steps := _num_steps_since_reset s + 1 in
      let episode_step := _current_episode_step s + 1 in
      if done then
        Ok (Some {| _num_steps_since_reset := num_steps;
                    _episode_returns := _episode_returns s ++ [py_sum rewards];
                    _episode_steps := _episode_steps s ++ [episode_step];
                    _episode_visited_rooms :=
                      append_visited_rooms (_episode_visited_rooms s) info;
                    _current_episode_rewards := [];
                    _current_episode_step := 0 |})
      else
        Ok (Some {| _num_steps_since_reset := num_steps;
                    _episode_returns := _episode_returns s;
                    _episode_steps := _episode_steps s;
                    _episode_visited_rooms := _episode_visited_rooms s;
                    _current_episode_rewards := rewards;
                    _current_episode_step := episode_step |})
  end.

(** The dictionary returned by [get]. *)
Record stats : Type := Stats {
  mean_episode_return : pyfloat;
  mean_episode_visited_rooms : pyfloat;
  num_episodes : Z;
  current_episode_step : Z;
  num_steps_since_reset : Z
}.

Definition get (self : t) : result stats :=
  match self with
  | None => Raise TypeError
  | Some s =>
      let '(mean_return, mean_rooms) :=
        if 0 <? Z.of_nat (length (_episode_returns s)) then
          (np_mean (_episode_returns s), np_mean (_episode_visited_rooms s))
        else
          let current_episode_return :=
            if 0 <? _num_steps_since_reset s
            then Num (py_sum (_current_episode_rewards s))
            else NaN in
          (current_episode_return, Num 0)
      in
      Ok {| mean_episode_return := mean_return;
            mean_episode_visited_rooms := mean_rooms;
            num_episodes := Z.of_nat (length (_episode_returns s));
            current_episode_step := _current_episode_step s;
            num_steps_since_reset := _num_steps_since_reset s |}
  end.

(** A method call other than [reset]. *)
Inductive call : Type :=
| CallStep (ts : timestep)
| CallGet.

(** The object after a call, and how the call ended.  [get] assigns to no
    attribute; a [step] that raises does so before its first assignment. *)
Definition exec (self : t) (c : call) : t * result unit :=
  match c with
  | CallStep ts =>
      match step self (ts_reward ts) (ts_done ts) (ts_info ts) with
      | Ok self' => (self', Ok ())
      | Raise e => (self, Raise e)
      end
  | CallGet =>
      match get self with
      | Ok _ => (self, Ok ())
      | Raise e => (self, Raise e)
      end
  end.

(** The object after a sequence of calls, by a caller that goes on after
    an exception. *)
Fixpoint run (self : t) (cs : list call) : t :=
  match cs with
  | [] => self
  | c :: cs' => run (fst (exec self c)) cs'
  end.

(** [step] called once per time step of a rollout. *)
Fixpoint rollout (self : t) (tr : list timestep) : result t :=
  match tr with
  | [] => Ok self
  | ts :: tr' =>
      self' ← step self (ts_reward ts) (ts_done ts) (ts_info ts);
      rollout self' tr'
  end.

(** The trackers that [reset] followed by calls of [step] can produce. *)
Inductive reachable : t -> Prop :=
| reach_reset (self : t) : reachable (reset self)
| reach_step (self self' : t) (reward : Q) (done : bool) (info : pyinfo) :
    reachable self ->
    step self reward done info = Ok self' ->
    reachable self'.

End EpisodeTracker.

Module StepRateTracker.

Local Open Scope Z_scope.

Record fields : Type := Fields {
  _num_steps_since_reset : Z;
  _start : Q
}.

Definition t : Type := option fields.

Definition __init__ : t := None.

Definition step (self : t) (reward : Q) (done : bool) (info : pyinfo)
  : result t :=
  match self with
  | None => Raise TypeError
  | Some s =>
      Ok (Some {| _num_steps_since_reset := _num_steps_since_reset s + 1;
                  _start := _start s |})
  end.

(** [now] is the reading of [timeit.default_timer()] taken by the call. *)
Definition reset (self : t) (now : Q) : t :=
  Some {| _num_steps_since_reset := 0; _start := now |}.

Record stats : Type := Stats {
  step_rate : pyfloat;
  num_steps : Z;
  duration : Q
}.

(** True division [n / d] of an [int] by a [float]. *)
Definition truediv (n : Z) (d : Q) : result Q :=
  if Qeq_bool d 0 then Raise ZeroDivisionError
  else Ok (inject_Z n / d)%Q.

Definition get (self : t) (now : Q) : result stats :=
  match self with
  | None => Raise TypeError
  | Some s =>
      let duration := (now - _start s)%Q in
      rate ← (if 0 <? _num_steps_since_reset s
              then q ← truediv (_num_steps_since_reset s) duration; Ok (Num q)
              else Ok NaN);
      Ok {| step_rate := rate;
            num_steps := _num_steps_since_reset s;
            duration := duration |}
  end.

Inductive call : Type :=
| CallStep (ts : timestep)
| CallGet (now : Q).

Definition exec (self : t) (c : call) : t * result unit :=
  match c with
  | CallStep ts =>
      match step self (ts_reward ts) (ts_done ts) (ts_info ts) with
      | Ok self' => (self', Ok ())
      | Raise e => (self, Raise e)
      end
  | CallGet now =>
      match get self now with
      | Ok _ => (self, Ok ())
      | Raise e => (self, Raise e)
      end
  end.

Fixpoint run (self : t) (cs : list call) : t :=
  match cs with
  | [] => self
  | c :: cs' => run (fst (exec self c)) cs'
  end.

Inductive reachable : t -> Prop :=
| reach_reset (self : t) (now : Q) : reachable (reset self now)
| reach_step (self self' : t) (reward : Q) (done : bool) (info : pyinfo) :
    reachable self ->
    step self reward done info = Ok self' ->
    reachable self'.

End StepRateTracker.

(** *** The trackers that write to tensorboard *)

(** [torch.utils.tensorboard.SummaryWriter], as the scalars added to it so
    far.  One writer object is shared by the trackers made from it. *)
Module SummaryWriter.

Record scalar : Type := Scalar {
  tag : string;
  scalar_value : pyfloat;
  global_step : Z
}.

Definition t : Type := list scalar.

Definition add_scalar (self : t) (tag : string) (v : pyfloat) (step : Z) : t :=
  self ++ [Scalar tag v step].

End SummaryWriter.

(** [l[-1]]: the last item, [IndexError] on an empty list. *)
Definition py_last {A : Type} (l : list A) : result A :=
  match last l with
  | Some x => Ok x
  | None => Raise IndexError
  end.

(** An [int] where a float is expected. *)
Definition float_of_int (n : Z) : pyfloat := Num (inject_Z n).

Module TensorboardEpisodeTracker.

Local Open Scope Z_scope.

(** The attributes of the base class, and the two counters that [reset]
    leaves alone. *)
Record t : Type := Self {
  base : EpisodeTracker.t;
  _total_steps : Z;
  _total_episodes : Z
}.

Definition __init__ : t :=
  {| base := EpisodeTracker.__init__; _total_steps := 0; _total_episodes := 0 |}.

(** [reset] and [get] are inherited. *)
Definition reset (self : t) : t :=
  {| base := EpisodeTracker.reset (base self);
     _total_steps := _total_steps self;
     _total_episodes := _total_episodes self |}.

Definition get (self : t) : result EpisodeTracker.stats :=
  EpisodeTracker.get (base self).

(** The three values read at the end of an episode. *)
Definition episode_summary (b : EpisodeTracker.t) : result (Q * Z * Q) :=
  match b with
  | None => Raise TypeError
  | Some s =>
      episode_return ← py_last (EpisodeTracker._episode_returns s);
      episode_step ← py_last (EpisodeTracker._episode_steps s);
      episode_visited_rooms ← py_last (EpisodeTracker._episode_visited_rooms s);
      Ok (episode_return, episode_step, episode_visited_rooms)
  end.

(** [step]: the object and the shared writer as the call leaves them,
    also when it raises. *)
Definition step (self : t) (writer : SummaryWriter.t)
    (reward : Q) (done : bool) (info : pyinfo)
  : t * SummaryWriter.t * result unit :=
  match EpisodeTracker.step (base self) reward done info with
  | Raise e => (self, writer, Raise e)
  | Ok b =>
      let total_steps := _total_steps self + 1 in
      if done then
        let total_episodes := _total_episodes self + 1 in
        let self' := {| base := b; _total_steps := total_steps;
                        _total_episodes := total_episodes |} in
        let tb_steps := total_steps in
        match episode_summary b with
        | Raise e => (self', writer, Raise e)
        | Ok (episode_return, episode_step, episode_visited_rooms) =>
            let w1 := SummaryWriter.add_scalar writer
                        "performance(env_steps)/num_episodes"
                        (float_of_int total_episodes) tb_steps in
            let w2 := SummaryWriter.add_scalar w1
                        "performance(env_steps)/episode_return"
                        (Num episode_return) tb_steps in
            let w3 := SummaryWriter.add_scalar w2
                        "performance(env_steps)/episode_steps"
                        (float_of_int episode_step) tb_steps in
            let w4 := SummaryWriter.add_scalar w3
                        "performance(env_steps)/episode_visited_rooms"
                        (Num episode_visited_rooms) tb_steps in
            (self', w4, Ok ())
        end
      else
        ({| base := b; _total_steps := total_steps;
            _total_episodes := _total_episodes self |}, writer, Ok ())
  end.

(** Calls of [step] and [reset] in any order, by a caller that goes on
    after an exception. *)
Inductive call : Type :=
| CallStep (ts : timestep)
| CallReset.

Definition exec (self : t) (writer : SummaryWriter.t) (c : call)
  : t * SummaryWriter.t * result unit :=
  match c with
  | CallStep ts => step self writer (ts_reward ts) (ts_done ts) (ts_info ts)
  | CallReset => (reset self, writer, Ok ())
  end.

Fixpoint run (self : t) (writer : SummaryWriter.t) (cs : list call)
  : t * SummaryWriter.t * list (result unit) :=
  match cs with
  | [] => (self, writer, [])
  | c :: cs' =>
      let '(self1, w1, r) := exec self writer c in
      let '(self2, w2, rs) := run self1 w1 cs' in
      (self2, w2, r :: rs)
  end.

End TensorboardEpisodeTracker.

Module TensorboardStepRateTracker.

Local Open Scope Z_scope.

(** [_total_episodes] is no attribute of this class; [set_tracker_steps]
    gives it one. *)
Record t : Type := Self {
  base : StepRateTracker.t;
  _total_steps : Z;
  _total_episodes : option Z
}.

Definition __init__ : t :=
  {| base := StepRateTracker.__init__; _total_steps := 0;
     _total_episodes := None |}.

Definition reset (self : t) (now : Q) : t :=
  {| base := StepRateTracker.reset (base self) now;
     _total_steps := _total_steps self;
     _total_episodes := _total_episodes self |}.

Definition get (self : t) (now : Q) : result StepRateTracker.stats :=
  StepRateTracker.get (base self) now.

(** [step]; [now] is the clock reading that [self.get()] takes when the
    step ends an episode. *)
Definition step (self : t) (writer : SummaryWriter.t) (now : Q)
    (reward : Q) (done : bool) (info : pyinfo)
  : t * SummaryWriter.t * result unit :=
  match StepRateTracker.step (base self) reward done info with
  | Raise e => (self, writer, Raise e)
  | Ok b =>
      let self' := {| base := b; _total_steps := _total_steps self + 1;
                      _total_episodes := _total_episodes self |} in
      if done then
        match StepRateTracker.get b now with
        | Raise e => (self', writer, Raise e)
        | Ok time_stats =>
            (self',
             SummaryWriter.add_scalar writer "performance(env_steps)/step_rate"
               (StepRateTracker.step_rate time_stats) (_total_steps self'),
             Ok ())
        end
      else (self', writer, Ok ())
  end.

End TensorboardStepRateTracker.

(** *** The functions on lists of trackers *)

(** A value of a statistics dictionary. *)
Inductive pyvalue : Type :=
| VFloat (x : pyfloat)
| VInt (n : Z).

Module Trackers.

Local Open Scope Z_scope.

(** An object of one of the four tracker classes. *)
Inductive tracker : Type :=
| Episode (e : EpisodeTracker.t)
| StepRate (r : StepRateTracker.t)
| TbEpisode (e : TensorboardEpisodeTracker.t)
| TbStepRate (r : TensorboardStepRateTracker.t).

(** The dictionaries that the two [get] methods return. *)
Definition episode_dict (st : EpisodeTracker.stats) : gmap string pyvalue :=
  {[ "mean_episode_return"%string := VFloat (EpisodeTracker.mean_episode_return st);
     "mean_episode_visited_rooms"%string :=
       VFloat (EpisodeTracker.mean_episode_visited_rooms st);
     "num_episodes"%string := VInt (EpisodeTracker.num_episodes st);
     "current_episode_step"%string := VInt (EpisodeTracker.current_episode_step st);
     "num_steps_since_reset"%string := VInt (EpisodeTracker.num_steps_since_reset st) ]}.

Definition step_rate_dict (st : StepRateTracker.stats) : gmap string pyvalue :=
  {[ "step_rate"%string := VFloat (StepRateTracker.step_rate st);
     "num_steps"%string := VInt (StepRateTracker.num_steps st);
     "duration"%string := VFloat (Num (StepRateTracker.duration st)) ]}.

Section WithTimer.

(** [default_timer k] is the reading of the [k]-th call of
    [timeit.default_timer()]; the number of calls made so far is threaded
    through the functions that read the clock. *)
Variable default_timer : nat -> Q.

(** [tracker.reset()] *)
Definition reset (tr : tracker) (ticks : nat) : tracker * nat :=
  match tr with
  | Episode e => (Episode (EpisodeTracker.reset e), ticks)
  | StepRate r => (StepRate (StepRateTracker.reset r (default_timer ticks)), S ticks)
  | TbEpisode e => (TbEpisode (TensorboardEpisodeTracker.reset e), ticks)
  | TbStepRate r =>
      (TbStepRate (TensorboardStepRateTracker.reset r (default_timer ticks)), S ticks)
  end.

Fixpoint reset_trackers (trackers : list tracker) (ticks : nat)
  : list tracker * nat :=
  match trackers with
  | [] => ([], ticks)
  | tr :: trackers' =>
      let '(tr', ticks1) := reset tr ticks in
      let '(rest, ticks2) := reset_trackers trackers' ticks1 in
      (tr' :: rest, ticks2)
  end.

(** [tracker.get()]; the step-rate trackers read the clock once. *)
Definition get (tr : tracker) (ticks : nat)
  : result (gmap string pyvalue) * nat :=
  match tr with
  | Episode e => (episode_dict <$> EpisodeTracker.get e, ticks)
  | StepRate r =>
      (step_rate_dict <$> StepRateTracker.get r (default_timer ticks), S ticks)
  | TbEpisode e => (episode_dict <$> TensorboardEpisodeTracker.get e, ticks)
  | TbStepRate r =>
      (step_rate_dict <$> TensorboardStepRateTracker.get r (default_timer ticks),
       S ticks)
  end.

(** The generator [(tracker.get() for tracker in trackers)], run to its
    end or to its first exception. *)
Fixpoint statistics_dicts (trackers : list tracker) (ticks : nat)
  : result (list (gmap string pyvalue)) :=
  match trackers with
  | [] => Ok []
  | tr :: trackers' =>
      let '(r, ticks1) := get tr ticks in
      d ← r;
      ds ← statistics_dicts trackers' ticks1;
      Ok (d :: ds)
  end.

(** [dict(collections.ChainMap(...))] of the dictionaries: every key of
    some map, with the value of the first map that has it. *)
Definition chain_map (maps : list (gmap string pyvalue)) : gmap string pyvalue :=
  ⋃ maps.

Definition generate_statistics (trackers : list tracker) (ticks : nat)
  : result (gmap string pyvalue) :=
  chain_map <$> statistics_dicts trackers ticks.

End WithTimer.

Definition set_steps (tr : tracker) (num_steps num_episodes : Z) : tracker :=
  match tr with
  | TbEpisode e =>
      TbEpisode {| TensorboardEpisodeTracker.base := TensorboardEpisodeTracker.base e;
                   TensorboardEpisodeTracker._total_steps := num_steps;
                   TensorboardEpisodeTracker._total_episodes := num_episodes |}
  | TbStepRate r =>
      TbStepRate {| TensorboardStepRateTracker.base := TensorboardStepRateTracker.base r;
                    TensorboardStepRateTracker._total_steps := num_steps;
                    TensorboardStepRateTracker._total_episodes := Some num_episodes |}
  | _ => tr
  end.

Definition set_tracker_steps (trackers : list tracker) (num_steps num_episodes : Z)
  : list tracker :=
  map (fun tr => set_steps tr num_steps num_episodes) trackers.

(** The list that [make_default_trackers] starts from, and the two
    trackers that it adds for a [log_dir]. *)
Definition default_trackers : list tracker :=
  [Episode EpisodeTracker.__init__; StepRate StepRateTracker.__init__].

Definition tensorboard_trackers : list tracker :=
  [TbEpisode TensorboardEpisodeTracker.__init__;
   TbStepRate TensorboardStepRateTracker.__init__].

End Trackers.

(** ** The part of the operating system that [CsvWriter] touches

    A model of [os.path.dirname], [os.path.exists], [os.makedirs] and
    [open(_, 'a')] on POSIX paths.  Directories are a set of path strings,
    regular files a map from path strings to their lines; nothing is ever
    removed, and paths are compared as strings. *)

(** A line of a CSV file, tagged with the [csv.DictWriter] method that
    wrote it: [writeheader] or [writerow]. *)
Inductive csv_line : Type :=
| HeaderLine (cells : list string)
| RowLine (cells : list string).

(** A [dict] with string keys, in insertion order; the values are the
    strings that the [csv] module writes for them. *)
Definition record : Type := list (string * string).

Definition keys (d : record) : list string := map fst d.

(** [d.get(k, '')] *)
Fixpoint get_or_empty (d : record) (k : string) : string :=
  match d with
  | [] => ""
  | (k', v) :: d' => if String.eqb k' k then v else get_or_empty d' k
  end.

Record world : Type := World {
  (** the [dict] objects of the caller, by identity; an identity that was
      never bound holds the empty [dict] *)
  heap : gmap nat record;
  dirs : gset string;
  files : gmap string (list csv_line)
}.

Definition deref (w : world) (a : nat) : record := default [] (heap w !! a).

Definition file_content (w : world) (fname : string) : list csv_line :=
  default [] (files w !! fname).

Module Os.

(** [p[:p.rfind('/') + 1]] *)
Fixpoint upto_last_slash (p : string) : string :=
  match p with
  | EmptyString => EmptyString
  | String a p' =>
      let h := upto_last_slash p' in
      if Ascii.eqb a "/" then String a h
      else match h with
           | EmptyString => EmptyString
           | _ => String a h
           end
  end.

(** [s == '/' * len(s)] *)
Fixpoint all_slashes (s : string) : bool :=
  match s with
  | EmptyString => true
  | String a s' => Ascii.eqb a "/" && all_slashes s'
  end.

(** [s.rstrip('/')] *)
Fixpoint rstrip_slashes (s : string) : string :=
  match s with
  | EmptyString => EmptyString
  | String a s' =>
      match rstrip_slashes s' with
      | EmptyString => if Ascii.eqb a "/" then EmptyString else String a EmptyString
      | r => String a r
      end
  end.

(** [posixpath.dirname] *)
Definition dirname (p : string) : string :=
  let head := upto_last_slash p in
  if negb (String.eqb head "") && negb (all_slashes head)
  then rstrip_slashes head
  else head.

Definition is_dir (w : world) (p : string) : bool :=
  negb (String.eqb p "") && (all_slashes p || bool_decide (p ∈ dirs w)).

Definition is_file (w : world) (p : string) : bool :=
  bool_decide (is_Some (files w !! p)).

(** [os.path.exists]: the empty path names nothing. *)
Definition exists_ (w : world) (p : string) : bool :=
  negb (String.eqb p "") && (is_dir w p || is_file w p).

(** The proper ancestors of a path: what precedes each of its slashes,
    without trailing slashes. *)
Fixpoint ancestors_from (seen : string) (p : string) : list string :=
  match p with
  | EmptyString => []
  | String a p' =>
      let rest := ancestors_from (seen ++ String a EmptyString) p' in
      if Ascii.eqb a "/" && negb (all_slashes seen) then
        rstrip_slashes seen :: rest
      else rest
  end.

Definition ancestors (p : string) : list string := ancestors_from "" p.

(** [os.makedirs(name)]: [mkdir] of the empty path fails with
    [FileNotFoundError]; a regular file on the way is not a directory;
    otherwise the directory and its missing ancestors are made. *)
Definition makedirs (w : world) (name : string) : result world :=
  if String.eqb name "" then Raise FileNotFoundError
  else if existsb (is_file w) (ancestors name) then Raise NotADirectoryError
  else if exists_ w name then Raise FileExistsError
  else Ok {| heap := heap w;
             dirs := dirs w ∪ list_to_set (ancestors name) ∪ {[ name ]};
             files := files w |}.

(** [open(fname, 'a')]: fails on a directory and below a missing
    directory; creates the file when it is absent. *)
Definition open_append (w : world) (fname : string) : result world :=
  if String.eqb fname "" then Raise FileNotFoundError
  else if is_dir w fname || String.eqb (upto_last_slash fname) fname
  then Raise IsADirectoryError
  else if negb (String.eqb (dirname fname) "") && negb (is_dir w (dirname fname))
  then (if is_file w (dirname fname) then Raise NotADirectoryError
        else Raise FileNotFoundError)
  else Ok {| heap := heap w;
             dirs := dirs w;
             files := <[ fname := file_content w fname ]> (files w) |}.

(** [file.write] of one line at the end of an open file. *)
Definition append_line (w : world) (fname : string) (l : csv_line) : world :=
  {| heap := heap w;
     dirs := dirs w;
     files := <[ fname := file_content w fname ++ [l] ]> (files w) |}.

End Os.

(** ** chapter_10/csv_writer.py *)

Module CsvWriter.

Record t : Type := Self {
  _fname : string;
  _header_written : bool;
  (** [values.keys()] of the first record: a view of that [dict] object,
      kept as the object's identity *)
  _fieldnames : option nat
}.

Definition __init__ (w : world) (fname : string) : result (t * world) :=
  let dirname := Os.dirname fname in
  w' ← (if negb (Os.exists_ w dirname) then Os.makedirs w dirname else Ok w);
  Ok ({| _fname := fname; _header_written := false; _fieldnames := None |}, w').

(** [csv.DictWriter._dict_to_list] with the default [extrasaction='raise']
    and [restval='']: a key of the row outside the field names is a
    [ValueError]. *)
Definition _dict_to_list (fieldnames : list string) (rowdict : record)
  : result (list string) :=
  if forallb (fun k => bool_decide (k ∈ fieldnames)) (keys rowdict)
  then Ok (map (get_or_empty rowdict) fieldnames)
  else Raise ValueError.

(** [write(values)], [values] being the [dict] object with identity
    [values].  The call returns the object and the world as it leaves
    them, also when it raises. *)
Definition write (self : t) (w : world) (values : nat)
  : t * world * result unit :=
  let fieldnames_ref :=
    match _fieldnames self with
    | None => values
    | Some a => a
    end in
  let self1 := {| _fname := _fname self;
                  _header_written := _header_written self;
                  _fieldnames := Some fieldnames_ref |} in
  match Os.open_append w (_fname self) with
  | Raise e => (self1, w, Raise e)
  | Ok w1 =>
      let fieldnames := keys (deref w fieldnames_ref) in
      let self2 := {| _fname := _fname self;
                      _header_written := true;
                      _fieldnames := Some fieldnames_ref |} in
      let w2 :=
        if negb (_header_written self)
        then Os.append_line w1 (_fname self) (HeaderLine fieldnames)
        else w1 in
      match _dict_to_list fieldnames (deref w values) with
      | Raise e => (self2, w2, Raise e)
      | Ok cells =>
          (self2, Os.append_line w2 (_fname self) (RowLine cells), Ok ())
      end
  end.

(** What happens to a writer between its construction and its end: the
    caller binds or mutates a [dict] object, or calls [write] with one. *)
Inductive event : Type :=
| Assign (a : nat) (d : record)
| Write (values : nat).

Definition assign (w : world) (a : nat) (d : record) : world :=
  {| heap := <[ a := d ]> (heap w); dirs := dirs w; files := files w |}.

(** Runs the events in order; the outcomes of the [write] calls are
    collected, in the order of the calls. *)
Fixpoint run (self : t) (w : world) (evs : list event)
  : t * world * list (result unit) :=
  match evs with
  | [] => (self, w, [])
  | Assign a d :: evs' => run self (assign w a d) evs'
  | Write a :: evs' =>
      let '(self', w', r) := write self w a in
      let '(self'', w'', rs) := run self' w' evs' in
      (self'', w'', r :: rs)
  end.

Definition is_ok {A : Type} (r : result A) : bool :=
  match r with
  | Ok _ => true
  | Raise _ => false
  end.

Definition is_header (l : csv_line) : bool :=
  match l with
  | HeaderLine _ => true
  | RowLine _ => false
  end.

Definition header_rows (ls : list csv_line) : list csv_line :=
  List.filter is_header ls.

Definition data_rows (ls : list csv_line) : list csv_line :=
  List.filter (fun l => negb (is_header l)) ls.

(** The world before any directory, file or [dict] object exists. *)
Definition empty_world : world := {| heap := ∅; dirs := ∅; files := ∅ |}.

(** The number of calls that returned without raising. *)
Definition calls_returned (outs : list (result unit)) : nat :=
  length (List.filter is_ok outs).

(** The number of [write] calls among the events. *)
Fixpoint writes_called (evs : list event) : nat :=
  match evs with
  | [] => 0
  | Assign _ _ :: evs' => writes_called evs'
  | Write _ :: evs' => S (writes_called evs')
  end.

(** The keys of the first record passed to [write], as they are when it
    is passed. *)
Fixpoint first_record_keys (w : world) (evs : list event) : option (list string) :=
  match evs with
  | [] => None
  | Assign a d :: evs' => first_record_keys (assign w a d) evs'
  | Write a :: _ => Some (keys (deref w a))
  end.

(** Two small scenarios.  A writer for ['logs/results.csv'] is made in the
    empty world.  In the first, the second record lacks a key of the
    first; in the second, it has a key that the first has not. *)
Definition example_log : string := "logs/results.csv".

Definition example_writer : t :=
  {| _fname := example_log; _header_written := false; _fieldnames := None |}.

Definition example_world : world :=
  match __init__ empty_world example_log with
  | Ok (_, w) => w
  | Raise _ => empty_world
  end.

Definition consistent_events : list event :=
  [Assign 1 [("a", "1"); ("b", "2")]; Write 1;
   Assign 2 [("b", "3")]; Write 2]%string.

Definition inconsistent_events : list event :=
  [Assign 1 [("a", "1")]; Write 1;
   Assign 2 [("b", "2")]; Write 2]%string.

End CsvWriter.

(** ** Vocabulary of the statements *)

Module CoordsSpec.

Import CoordsConvertor.
Local Open Scope Z_scope.

(** A Minigo coordinate of a board of size [N]: pass, or a point with
    row and column in [0 .. N-1]. *)
Definition on_board (N : Z) (c : coord) : Prop :=
  match c with
  | None => True
  | Some (r, k) => 0 <= r < N /\ 0 <= k < N
  end.

(** Row and column have an entry in [_SGF_COLUMNS]. *)
Definition in_sgf_table (c : coord) : Prop :=
  match c with
  | None => True
  | Some (r, k) => r < 52 /\ k < 52
  end.

(** The column has an entry in [_GTP_COLUMNS]. *)
Definition in_gtp_table (c : coord) : Prop :=
  match c with
  | None => True
  | Some (_, k) => k < 25
  end.

(** [from_sgf(to_sgf(c))] and [from_gtp(to_gtp(c))] *)
Definition sgf_roundtrip (N : Z) (c : coord) : result coord :=
  s ← to_sgf c; from_sgf N (Some s).

Definition gtp_roundtrip (N : Z) (c : coord) : result coord :=
  s ← to_gtp N c; from_gtp N s.

(** The characters of a string. *)
Definition chars (s : string) : list ascii := list_ascii_of_string s.

Definition is_upper_letter (a : ascii) : bool :=
  ((65 <=? nat_of_ascii a) && (nat_of_ascii a <=? 90))%nat.

End CoordsSpec.

Module TrackerSpec.

(** A rollout cut into episodes: the reward lists of the episodes that a
    [done] step completed, and the rewards of the episode in progress.
    [cur] holds the rewards of the episode in progress so far. *)
Fixpoint episodes_from (cur : list Q) (tr : list timestep)
  : list (list Q) * list Q :=
  match tr with
  | [] => ([], cur)
  | ts :: tr' =>
      if ts_done ts then
        let '(eps, rest) := episodes_from [] tr' in
        ((cur ++ [ts_reward ts]) :: eps, rest)
      else episodes_from (cur ++ [ts_reward ts]) tr'
  end.

Definition completed_episodes (tr : list timestep) : list (list Q) :=
  fst (episodes_from [] tr).

Definition episode_in_progress (tr : list timestep) : list Q :=
  snd (episodes_from [] tr).

(** The return of an episode: [sum] of its rewards. *)
Definition episode_return (rewards : list Q) : Q := py_sum rewards.


(** The number of steps of a rollout that end an episode. *)
Definition done_steps (tr : list timestep) : nat :=
  length (List.filter ts_done tr).

(** The number of [step] calls among the calls of a tracker. *)
Fixpoint episode_steps_called (cs : list EpisodeTracker.call) : Z :=
  match cs with
  | [] => 0
  | EpisodeTracker.CallStep _ :: cs' => 1 + episode_steps_called cs'
  | EpisodeTracker.CallGet :: cs' => episode_steps_called cs'
  end.

Fixpoint rate_steps_called (cs : list StepRateTracker.call) : Z :=
  match cs with
  | [] => 0
  | StepRateTracker.CallStep _ :: cs' => 1 + rate_steps_called cs'
  | StepRateTracker.CallGet _ :: cs' => rate_steps_called cs'
  end.

End TrackerSpec.

Module RolloutSpec.

(** The rewards of a rollout, in order. *)
Definition rewards (tr : list timestep) : list Q := map ts_reward tr.

(** What a step reports as visited rooms: the entry of its [info], when
    the step ends an episode and [info] is a [dict] that has it. *)
Definition reported_rooms (ts : timestep) : option Q :=
  if ts_done ts then info_lookup (ts_info ts) "episode_visited_rooms"
  else None.

Definition rooms_reported (tr : list timestep) : list Q :=
  omap reported_rooms tr.

(** The length of a list as a Python [int]. *)
Definition len {A : Type} (l : list A) : Z := Z.of_nat (length l).

(** The steps and the episode ends among the calls of a tensorboard
    tracker. *)
Fixpoint tb_steps_called (cs : list TensorboardEpisodeTracker.call) : Z :=
  match cs with
  | [] => 0
  | TensorboardEpisodeTracker.CallStep _ :: cs' => 1 + tb_steps_called cs'
  | TensorboardEpisodeTracker.CallReset :: cs' => tb_steps_called cs'
  end.

Fixpoint tb_episodes_ended (cs : list TensorboardEpisodeTracker.call) : Z :=
  match cs with
  | [] => 0
  | TensorboardEpisodeTracker.CallStep ts :: cs' =>
      (if ts_done ts then 1 else 0) + tb_episodes_ended cs'
  | TensorboardEpisodeTracker.CallReset :: cs' => tb_episodes_ended cs'
  end.

End RolloutSpec.

Module CsvSpec.

Import CsvWriter.

(** The events of a caller that logs one new record per iteration: the
    records are bound to [dict] objects with the identities [a], [a+1],
    ... and each is passed to [write] once. *)
Fixpoint log_events (a : nat) (recs : list record) : list event :=
  match recs with
  | [] => []
  | d :: recs' => Assign a d :: Write a :: log_events (S a) recs'
  end.

(** Two worlds that differ at most in the content of the file [f]. *)
Definition same_except (f : string) (w w' : world) : Prop :=
  heap w' = heap w /\ dirs w' = dirs w /\
  forall g, g <> f -> files w' !! g = files w !! g.

(** The cells of a data row. *)
Definition row_of (fieldnames : list string) (d : record) : list string :=
  map (get_or_empty d) fieldnames.

End CsvSpec.

(** * Properties *)

(** ** Strings *)

Section StringFacts.

Local Open Scope Z_scope.

Lemma get_chars (s : string) (n : nat) (c : ascii) :
  String.get n s = Some c -> In c (CoordsSpec.chars s).
Proof.
  revert n; induction s as [|a s IH]; intros [|n] H; simpl in *;
    try discriminate.
  - left; congruence.
  - right; eauto.
Qed.

Lemma get_lt (s : string) (n : nat) :
  (n < String.length s)%nat -> exists c, String.get n s = Some c.
Proof.
  revert n; induction s as [|a s IH]; intros n H; simpl in *; [lia|].
  destruct n as [|n]; [eauto|]. apply IH; lia.
Qed.

(** Indexing with an index inside the string reads the character there. *)
Lemma str_getitem_inside (s : string) (i : Z) :
  0 <= i < Z.of_nat (String.length s) ->
  exists c, str_getitem s i = Ok c /\ String.get (Z.to_nat i) s = Some c.
Proof.
  intros Hi. unfold str_getitem.
  destruct (Z.ltb_spec i 0); [lia|].
  destruct (Z.leb_spec 0 i); [|lia].
  destruct (Z.ltb_spec i (Z.of_nat (String.length s))); [|lia].
  simpl. destruct (get_lt s (Z.to_nat i)) as [c Hc]; [lia|].
  exists c. now rewrite Hc.
Qed.

(** An index at or beyond the end raises [IndexError]. *)
Lemma str_getitem_beyond (s : string) (i : Z) :
  Z.of_nat (String.length s) <= i -> str_getitem s i = Raise IndexError.
Proof.
  intros Hi. unfold str_getitem.
  destruct (Z.ltb_spec i 0); [lia|].
  destruct (Z.ltb_spec i (Z.of_nat (String.length s))); [lia|].
  now rewrite andb_false_r.
Qed.

(** In a string without repeated characters, [index] inverts indexing. *)
Lemma str_index_from_get (s : string) :
  List.NoDup (CoordsSpec.chars s) ->
  forall (k : Z) (n : nat) (c : ascii),
    String.get n s = Some c ->
    str_index_from k s c = Ok (k + Z.of_nat n).
Proof.
  induction s as [|a s IH]; intros Hnd k n c Hget; [now destruct n|].
  apply List.NoDup_cons_iff in Hnd as [Hnotin Hnd].
  destruct n as [|n]; simpl in Hget |- *.
  - injection Hget as ->. rewrite Ascii.eqb_refl. f_equal; lia.
  - destruct (Ascii.eqb_spec a c) as [->|_].
    + exfalso. apply Hnotin. eapply get_chars; eauto.
    + rewrite (IH Hnd (k + 1) n c Hget). f_equal; lia.
Qed.

Lemma str_index_getitem (s : string) (i : Z) (c : ascii) :
  List.NoDup (CoordsSpec.chars s) ->
  0 <= i ->
  String.get (Z.to_nat i) s = Some c ->
  str_index s c = Ok i.
Proof.
  intros Hnd Hi Hget. unfold str_index.
  rewrite (str_index_from_get s Hnd 0 _ c Hget). f_equal; lia.
Qed.

(** Decimal numerals contain no lower-case letter. *)
Lemma str_upper_uint (d : Decimal.uint) :
  str_upper (NilEmpty.string_of_uint d) = NilEmpty.string_of_uint d.
Proof. induction d; simpl; now rewrite ?IHd. Qed.

Lemma str_upper_py_str (n : Z) : str_upper (py_str n) = py_str n.
Proof.
  unfold py_str, NilZero.string_of_int, NilZero.string_of_uint.
  destruct (Z.to_int n) as [d|d]; destruct d; simpl;
    now rewrite ?str_upper_uint.
Qed.

(** [int(str(n)) == n] *)
Lemma py_int_py_str (n : Z) : py_int (py_str n) = Ok n.
Proof.
  unfold py_int, py_str. rewrite NilZero.isi.
  - now rewrite DecimalZ.of_to.
  - destruct n; simpl; try discriminate.
    intros [= H]. now apply DecimalPos.Unsigned.to_uint_nonnil in H.
  - destruct n; simpl; try discriminate.
    intros [= H]. now apply DecimalPos.Unsigned.to_uint_nonnil in H.
Qed.

End StringFacts.

(** ** Coordinates *)

Section CoordsFacts.

Import CoordsConvertor CoordsSpec.
Local Open Scope Z_scope.

Lemma sgf_columns_nodup : List.NoDup (chars _SGF_COLUMNS).
Proof. apply NoDup_ListNoDup, (bool_decide_unpack _). by vm_compute. Qed.

Lemma gtp_columns_nodup : List.NoDup (chars _GTP_COLUMNS).
Proof. apply NoDup_ListNoDup, (bool_decide_unpack _). by vm_compute. Qed.

Lemma sgf_columns_length : Z.of_nat (String.length _SGF_COLUMNS) = 52.
Proof. reflexivity. Qed.

Lemma gtp_columns_length : Z.of_nat (String.length _GTP_COLUMNS) = 25.
Proof. reflexivity. Qed.

(** Every GTP column is an upper-case letter other than [I]. *)
Lemma gtp_columns_letters (a : ascii) :
  In a (chars _GTP_COLUMNS) ->
  is_upper_letter a = true /\ a <> "I"%char /\ upper_char a = a.
Proof.
  assert (H : forallb (fun a => is_upper_letter a && negb (Ascii.eqb a "I")
                                && Ascii.eqb (upper_char a) a)
                (chars _GTP_COLUMNS) = true) by reflexivity.
  rewrite forallb_forall in H. intros Ha. specialize (H a Ha).
  apply andb_prop in H as [H H3]. apply andb_prop in H as [H1 H2].
  repeat split; [exact H1| |now apply Ascii.eqb_eq].
  intros ->. discriminate H2.
Qed.

Lemma bind_Ok {A B : Type} (a : A) (k : A -> result B) : (Ok a ≫= k) = k a.
Proof. reflexivity. Qed.

Lemma bind_Raise {A B : Type} (e : exn) (k : A -> result B) :
  (Raise e ≫= k) = Raise e.
Proof. reflexivity. Qed.

Lemma str_getitem_head (a : ascii) (s : string) : str_getitem (String a s) 0 = Ok a.
Proof.
  unfold str_getitem. change (0 <? 0) with false. cbv iota.
  change (0 <=? 0) with true.
  destruct (Z.ltb_spec 0 (Z.of_nat (String.length (String a s)))) as [_|H].
  - reflexivity.
  - simpl String.length in H. lia.
Qed.

(** [to_sgf] of a point whose row and column are in the table. *)
Lemma to_sgf_point (r k : Z) :
  0 <= r < 52 -> 0 <= k < 52 ->
  exists a b, to_sgf (Some (r, k)) = Ok (String a (String b EmptyString)) /\
              String.get (Z.to_nat k) _SGF_COLUMNS = Some a /\
              String.get (Z.to_nat r) _SGF_COLUMNS = Some b.
Proof.
  intros Hr Hk.
  destruct (str_getitem_inside _SGF_COLUMNS k) as (a & Ha & Ga);
    [now rewrite sgf_columns_length|].
  destruct (str_getitem_inside _SGF_COLUMNS r) as (b & Hb & Gb);
    [now rewrite sgf_columns_length|].
  exists a, b. unfold to_sgf. now rewrite Ha, bind_Ok, Hb, bind_Ok.
Qed.

Lemma sgf_roundtrip_point (N r k : Z) :
  0 <= r < N -> 0 <= k < N -> r < 52 -> k < 52 ->
  sgf_roundtrip N (Some (r, k)) = Ok (Some (r, k)).
Proof.
  intros Hr Hk Hr' Hk'.
  destruct (to_sgf_point r k) as (a & b & Hto & Ga & Gb); [lia..|].
  pose proof (str_index_getitem _ k a sgf_columns_nodup (proj1 Hk) Ga) as Ia.
  pose proof (str_index_getitem _ r b sgf_columns_nodup (proj1 Hr) Gb) as Ib.
  unfold sgf_roundtrip. rewrite Hto, bind_Ok. unfold from_sgf.
  assert (Htt : (N <=? 19) && String.eqb (String a (String b "")) "tt" = false).
  { destruct (Z.leb_spec N 19) as [HN|]; [|reflexivity].
    simpl. destruct (Ascii.eqb_spec a "t") as [->|]; [|reflexivity].
    exfalso. vm_compute in Ia. injection Ia as <-. lia. }
  rewrite Htt.
  change (String.eqb (String a (String b "")) "") with false.
  cbv beta iota delta [orb].
  change (str_getitem (String a (String b "")) 1) with (@Ok ascii b).
  rewrite bind_Ok, Ib, bind_Ok, str_getitem_head, bind_Ok, Ia, bind_Ok.
  reflexivity.
Qed.

Lemma to_gtp_point (N r k : Z) :
  0 <= k < 25 ->
  exists a, to_gtp N (Some (r, k)) = Ok (String a (py_str (N - r))) /\
            str_getitem _GTP_COLUMNS k = Ok a /\
            String.get (Z.to_nat k) _GTP_COLUMNS = Some a.
Proof.
  intros Hk.
  destruct (str_getitem_inside _GTP_COLUMNS k) as (a & Ha & Ga);
    [now rewrite gtp_columns_length|].
  exists a. unfold to_gtp. now rewrite Ha, bind_Ok.
Qed.

Lemma gtp_roundtrip_point (N r k : Z) :
  0 <= k < 25 ->
  gtp_roundtrip N (Some (r, k)) = Ok (Some (r, k)).
Proof.
  intros Hk.
  destruct (to_gtp_point N r k Hk) as (a & Hto & _ & Ga).
  pose proof (str_index_getitem _ k a gtp_columns_nodup (proj1 Hk) Ga) as Ia.
  destruct (gtp_columns_letters a (get_chars _ _ _ Ga)) as (_ & _ & Hup).
  unfold gtp_roundtrip. rewrite Hto, bind_Ok. unfold from_gtp.
  cbn [str_upper]. rewrite Hup, str_upper_py_str.
  assert (Hpass : String.eqb (String a (py_str (N - r))) "PASS" = false).
  { apply String.eqb_neq. intros [= _ H].
    pose proof (py_int_py_str (N - r)) as Hint. rewrite H in Hint.
    discriminate Hint. }
  rewrite Hpass, str_getitem_head, bind_Ok, Ia, bind_Ok.
  cbn [str_tail]. rewrite py_int_py_str, bind_Ok.
  do 3 f_equal. lia.
Qed.

(** C3.  For a board of size [N] and every flattened coordinate [x] with
    [0 <= x <= N*N], [from_flat] returns a coordinate that [to_flat] maps
    back to [x], and that coordinate is [None] exactly when [x = N*N]; for
    every point [(r, k)] of the board, [to_flat] lies in [0 .. N*N-1]. *)
Theorem flat_roundtrip (N x r k : Z) :
  (0 <= x <= N * N ->
   exists c, from_flat N x = Ok c /\ to_flat N c = x /\
             (c = None <-> x = N * N)) /\
  (0 <= r < N -> 0 <= k < N ->
   0 <= to_flat N (Some (r, k)) <= N * N - 1).
Proof.
  split.
  - intros Hx. unfold from_flat.
    destruct (Z.eqb_spec x (N * N)) as [->|Hne].
    + exists None. now repeat split.
    + destruct (Z.eqb_spec N 0) as [->|HN]; [lia|].
      exists (Some (x / N, x mod N)). repeat split.
      * simpl. symmetry. apply Z.div_mod. exact HN.
      * discriminate.
      * intros; contradiction.
  - intros Hr Hk. simpl. nia.
Qed.

Lemma flat_roundtrip_witness :
  (exists c, from_flat 19 42 = Ok c /\ to_flat 19 c = 42 /\
             (c = None <-> 42 = 19 * 19)) /\
  0 <= to_flat 19 (Some (3, 4)) <= 19 * 19 - 1.
Proof.
  destruct (flat_roundtrip 19 42 3 4) as [H1 H2].
  split; [apply H1; lia | apply H2; lia].
Defined.

(** C4, as the tables allow it.  For a board of size [N] and a Minigo
    coordinate that is pass or a point of the board: when row and column
    are below 52, the length of [_SGF_COLUMNS], [from_sgf(to_sgf(c)) = c];
    when the column is below 25, the length of [_GTP_COLUMNS],
    [from_gtp(to_gtp(c)) = c]; pass is [''] in SGF and ['pass'] in GTP,
    and both decode to [None]. *)
Theorem sgf_gtp_roundtrip (N : Z) (c : coord) :
  on_board N c ->
  (in_sgf_table c -> sgf_roundtrip N c = Ok c) /\
  (in_gtp_table c -> gtp_roundtrip N c = Ok c) /\
  to_sgf None = Ok ""%string /\ from_sgf N (Some ""%string) = Ok None /\
  to_gtp N None = Ok "pass"%string /\ from_gtp N "pass" = Ok None.
Proof.
  intros Hc. split; [|split; [|now repeat split]].
  - destruct c as [[r k]|]; [|reflexivity].
    intros [Hr Hk]. destruct Hc. now apply sgf_roundtrip_point.
  - destruct c as [[r k]|]; [|reflexivity].
    intros Hk. destruct Hc. apply gtp_roundtrip_point. simpl in Hk. lia.
Qed.

Lemma sgf_gtp_roundtrip_witness :
  on_board 19 (Some (3, 15)) /\
  sgf_roundtrip 19 (Some (3, 15)) = Ok (Some (3, 15)) /\
  gtp_roundtrip 19 (Some (3, 15)) = Ok (Some (3, 15)).
Proof.
  assert (H : on_board 19 (Some (3, 15))) by (simpl; lia).
  destruct (sgf_gtp_roundtrip 19 (Some (3, 15)) H) as (H1 & H2 & _).
  split; [exact H|]. split; [apply H1; simpl; lia | apply H2; simpl; lia].
Defined.

(** C4 as stated fails on boards larger than the tables: on a board of
    size 26 the point [(0, 25)] has no GTP column, and on a board of size
    53 the point [(0, 52)] has no SGF column; [to_gtp] and [to_sgf] raise
    [IndexError] there. *)
Lemma sgf_gtp_roundtrip_large_board :
  (on_board 26 (Some (0, 25)) /\
   gtp_roundtrip 26 (Some (0, 25)) = Raise IndexError) /\
  (on_board 53 (Some (0, 52)) /\
   sgf_roundtrip 53 (Some (0, 52)) = Raise IndexError).
Proof. repeat split; simpl; lia. Qed.

(** C8.  For every point [(r, k)] with [0 <= k < 25], [to_gtp] returns
    the column letter [_GTP_COLUMNS[k]], an upper-case letter that is
    never [I], followed by the decimal numeral of [board_size - r]. *)
Theorem to_gtp_letter_number (N r k : Z) :
  0 <= k < 25 ->
  exists a : ascii,
    to_gtp N (Some (r, k)) = Ok (String a (py_str (N - r))) /\
    str_getitem _GTP_COLUMNS k = Ok a /\
    is_upper_letter a = true /\ a <> "I"%char /\
    py_int (py_str (N - r)) = Ok (N - r).
Proof.
  intros Hk. destruct (to_gtp_point N r k Hk) as (a & Hto & Ha & Ga).
  destruct (gtp_columns_letters a (get_chars _ _ _ Ga)) as (Hl & HI & _).
  exists a. repeat split; auto using py_int_py_str.
Qed.

Lemma to_gtp_letter_number_witness :
  exists a : ascii,
    to_gtp 19 (Some (0, 8)) = Ok (String a (py_str (19 - 0))) /\
    str_getitem _GTP_COLUMNS 8 = Ok a /\
    is_upper_letter a = true /\ a <> "I"%char /\
    py_int (py_str (19 - 0)) = Ok (19 - 0).
Proof. apply (to_gtp_letter_number 19 0 8). lia. Defined.

End CoordsFacts.

(** ** Trackers *)

Section EpisodeTrackerFacts.

Import TrackerSpec.
Local Open Scope Z_scope.

Lemma py_sumZ_snoc (l : list Z) (x : Z) : py_sumZ (l ++ [x]) = py_sumZ l + x.
Proof. unfold py_sumZ. now rewrite fold_left_app. Qed.

(** The invariant of the trackers that [reset] and [step] produce. *)
Lemma episode_reachable_inv (self : EpisodeTracker.t) :
  EpisodeTracker.reachable self ->
  exists s, self = Some s /\
    0 <= EpisodeTracker._current_episode_step s /\
    EpisodeTracker._num_steps_since_reset s =
      py_sumZ (EpisodeTracker._episode_steps s)
      + EpisodeTracker._current_episode_step s /\
    length (EpisodeTracker._episode_returns s) =
      length (EpisodeTracker._episode_steps s).
Proof.
  induction 1 as [self|self self' reward done info _ IH Hstep].
  - eexists; split; [reflexivity|]. simpl. repeat split; lia.
  - destruct IH as (s & -> & Hpos & Hnum & Hlen).
    unfold EpisodeTracker.step in Hstep.
    destruct done; injection Hstep as <-;
      (eexists; split; [reflexivity|]); simpl;
      rewrite ?py_sumZ_snoc, ?length_app; simpl; repeat split; lia.
Qed.

(** A rollout from a live tracker never raises; it appends one return per
    completed episode and keeps the rewards of the episode in progress. *)
Lemma rollout_episodes (tr : list timestep) :
  forall s : EpisodeTracker.fields,
  exists s', EpisodeTracker.rollout (Some s) tr = Ok (Some s') /\
    EpisodeTracker._episode_returns s' =
      EpisodeTracker._episode_returns s
      ++ map py_sum (fst (episodes_from (EpisodeTracker._current_episode_rewards s) tr)) /\
    EpisodeTracker._current_episode_rewards s' =
      snd (episodes_from (EpisodeTracker._current_episode_rewards s) tr) /\
    EpisodeTracker._num_steps_since_reset s' =
      EpisodeTracker._num_steps_since_reset s + Z.of_nat (length tr).
Proof.
  induction tr as [|ts tr IH]; intros s.
  - exists s. simpl. rewrite app_nil_r. repeat split; lia.
  - cbn [EpisodeTracker.rollout episodes_from]. unfold EpisodeTracker.step.
    destruct (ts_done ts); rewrite bind_Ok.
    + match goal with |- context [EpisodeTracker.rollout (Some ?x) tr] =>
        destruct (IH x) as (s' & Hrun & Hret & Hrew & Hnum) end.
      cbn [EpisodeTracker._episode_returns EpisodeTracker._current_episode_rewards
           EpisodeTracker._num_steps_since_reset] in Hret, Hrew, Hnum.
      exists s'. split; [exact Hrun|].
      destruct (episodes_from [] tr) as [eps rest].
      cbn [fst snd map] in *. rewrite Hret, Hrew, Hnum, <- app_assoc.
      repeat split. cbn [length]. lia.
    + match goal with |- context [EpisodeTracker.rollout (Some ?x) tr] =>
        destruct (IH x) as (s' & Hrun & Hret & Hrew & Hnum) end.
      cbn [EpisodeTracker._episode_returns EpisodeTracker._current_episode_rewards
           EpisodeTracker._num_steps_since_reset] in Hret, Hrew, Hnum.
      exists s'. split; [exact Hrun|].
      rewrite Hret, Hrew, Hnum. repeat split. cbn [length]. lia.
Qed.


(** C5.  On a tracker that [reset] and [step] calls produced, [step]
    returns; with [done] it leaves [_current_episode_step] at 0 and the
    list of rewards in progress empty; without [done] it leaves
    [_current_episode_step] one above its value before, which is not 0.  So
    the counter is 0 after a step exactly when the step completed an
    episode. *)
Theorem current_episode_step_resets
    (self : EpisodeTracker.t) (reward : Q) (done : bool) (info : pyinfo) :
  EpisodeTracker.reachable self ->
  exists s s', self = Some s /\
    EpisodeTracker.step self reward done info = Ok (Some s') /\
    (done = true ->
       EpisodeTracker._current_episode_step s' = 0 /\
       EpisodeTracker._current_episode_rewards s' = []) /\
    (done = false ->
       EpisodeTracker._current_episode_step s' =
         EpisodeTracker._current_episode_step s + 1 /\
       EpisodeTracker._current_episode_step s' <> 0) /\
    (EpisodeTracker._current_episode_step s' = 0 <-> done = true).
Proof.
  intros Hreach.
  destruct (episode_reachable_inv self Hreach) as (s & -> & Hpos & _).
  exists s. unfold EpisodeTracker.step.
  destruct done; (eexists; split; [reflexivity|]; split; [reflexivity|]);
    cbn [EpisodeTracker._current_episode_step
         EpisodeTracker._current_episode_rewards];
    repeat split; intros; try discriminate; try lia.
Qed.

Lemma current_episode_step_resets_witness :
  exists s s', EpisodeTracker.reset EpisodeTracker.__init__ = Some s /\
    EpisodeTracker.step (EpisodeTracker.reset EpisodeTracker.__init__)
      1%Q true InfoNone = Ok (Some s') /\
    (true = true ->
       EpisodeTracker._current_episode_step s' = 0 /\
       EpisodeTracker._current_episode_rewards s' = []) /\
    (true = false ->
       EpisodeTracker._current_episode_step s' =
         EpisodeTracker._current_episode_step s + 1 /\
       EpisodeTracker._current_episode_step s' <> 0) /\
    (EpisodeTracker._current_episode_step s' = 0 <-> true = true).
Proof.
  apply (current_episode_step_resets
           (EpisodeTracker.reset EpisodeTracker.__init__) 1%Q true InfoNone).
  apply EpisodeTracker.reach_reset.
Defined.

(** The two lists get one entry for every step that ends an episode. *)
Lemma rollout_lengths (tr : list timestep) :
  forall s : EpisodeTracker.fields,
  exists s', EpisodeTracker.rollout (Some s) tr = Ok (Some s') /\
    length (EpisodeTracker._episode_returns s')
    = (length (EpisodeTracker._episode_returns s) + done_steps tr)%nat /\
    length (EpisodeTracker._episode_steps s')
    = (length (EpisodeTracker._episode_steps s) + done_steps tr)%nat.
Proof.
  induction tr as [|ts tr IH]; intros s.
  - exists s. unfold done_steps. simpl. repeat split; lia.
  - cbn [EpisodeTracker.rollout]. unfold EpisodeTracker.step, done_steps.
    cbn [List.filter].
    destruct (ts_done ts); rewrite bind_Ok;
      match goal with |- context [EpisodeTracker.rollout (Some ?x) tr] =>
        destruct (IH x) as (s' & Hrun & Hret & Hst) end;
      cbn [EpisodeTracker._episode_returns EpisodeTracker._episode_steps]
        in Hret, Hst;
      exists s'; (split; [exact Hrun|]);
      rewrite Hret, Hst, ?length_app; unfold done_steps; cbn [length];
      split; lia.
Qed.

Lemma rollout_app (tr1 tr2 : list timestep) :
  forall self : EpisodeTracker.t,
  EpisodeTracker.rollout self (tr1 ++ tr2)
  = (self' ← EpisodeTracker.rollout self tr1; EpisodeTracker.rollout self' tr2).
Proof.
  induction tr1 as [|ts tr1 IH]; intros self; [reflexivity|].
  cbn [app EpisodeTracker.rollout].
  destruct (EpisodeTracker.step self (ts_reward ts) (ts_done ts) (ts_info ts))
    as [self1|e]; [|reflexivity].
  rewrite !bind_Ok. apply IH.
Qed.

(** Every reachable tracker is the result of a rollout after [reset]. *)
Lemma reachable_rollout (self : EpisodeTracker.t) :
  EpisodeTracker.reachable self ->
  exists tr,
    EpisodeTracker.rollout (EpisodeTracker.reset EpisodeTracker.__init__) tr
    = Ok self.
Proof.
  induction 1 as [self|self self' reward done info _ IH Hstep].
  - now exists [].
  - destruct IH as [tr Htr]. exists (tr ++ [Timestep reward done info]).
    rewrite rollout_app, Htr, bind_Ok. cbn [EpisodeTracker.rollout].
    cbn [ts_reward ts_done ts_info]. now rewrite Hstep.
Qed.

(** C10.  On every tracker that [reset] and [step] calls produced,
    [_num_steps_since_reset = sum(_episode_steps) + _current_episode_step],
    and [_episode_returns] and [_episode_steps] have the same length: the
    tracker is the result of a rollout after [reset], and for every such
    rollout each of the two lists has one entry per step that completed
    an episode. *)
Theorem steps_accounting (self : EpisodeTracker.t) :
  EpisodeTracker.reachable self ->
  exists s, self = Some s /\
    EpisodeTracker._num_steps_since_reset s =
      py_sumZ (EpisodeTracker._episode_steps s)
      + EpisodeTracker._current_episode_step s /\
    length (EpisodeTracker._episode_returns s) =
      length (EpisodeTracker._episode_steps s) /\
    (exists tr,
       EpisodeTracker.rollout (EpisodeTracker.reset EpisodeTracker.__init__) tr
       = Ok (Some s)) /\
    (forall self0 tr,
       EpisodeTracker.rollout (EpisodeTracker.reset self0) tr = Ok (Some s) ->
       length (EpisodeTracker._episode_returns s) = done_steps tr /\
       length (EpisodeTracker._episode_steps s) = done_steps tr).
Proof.
  intros Hreach.
  destruct (episode_reachable_inv self Hreach) as (s & -> & _ & Hnum & Hlen).
  exists s. split; [reflexivity|]. split; [exact Hnum|]. split; [exact Hlen|].
  split; [exact (reachable_rollout _ Hreach)|].
  intros self0 tr Hrun. unfold EpisodeTracker.reset in Hrun.
  match type of Hrun with EpisodeTracker.rollout (Some ?x) tr = _ =>
    destruct (rollout_lengths tr x) as (s' & Hrun' & Hret & Hst) end.
  rewrite Hrun in Hrun'. injection Hrun' as <-.
  cbn [EpisodeTracker._episode_returns EpisodeTracker._episode_steps length]
    in Hret, Hst.
  split; lia.
Qed.

(** Calls of [step] and [get] lead from reachable trackers to reachable
    trackers. *)
Lemma episode_run_reachable (cs : list EpisodeTracker.call) :
  forall self : EpisodeTracker.t,
  EpisodeTracker.reachable self ->
  EpisodeTracker.reachable (EpisodeTracker.run self cs).
Proof.
  induction cs as [|c cs IH]; intros self Hreach; [exact Hreach|].
  cbn [EpisodeTracker.run]. apply IH.
  destruct c as [ts|]; cbn [EpisodeTracker.exec].
  - destruct (EpisodeTracker.step self (ts_reward ts) (ts_done ts) (ts_info ts))
      as [self'|e] eqn:Hstep; cbn [fst]; [|exact Hreach].
    eapply EpisodeTracker.reach_step; eauto.
  - destruct (EpisodeTracker.get self); exact Hreach.
Qed.

Lemma steps_accounting_witness :
  exists s,
    EpisodeTracker.run (EpisodeTracker.reset EpisodeTracker.__init__)
      [EpisodeTracker.CallStep (Timestep 1%Q false InfoNone);
       EpisodeTracker.CallStep (Timestep (1 # 2)%Q true InfoNone);
       EpisodeTracker.CallStep (Timestep 0%Q false InfoOther)] = Some s /\
    EpisodeTracker._num_steps_since_reset s =
      py_sumZ (EpisodeTracker._episode_steps s)
      + EpisodeTracker._current_episode_step s /\
    length (EpisodeTracker._episode_returns s) =
      length (EpisodeTracker._episode_steps s) /\
    length (EpisodeTracker._episode_returns s)
    = done_steps [Timestep 1%Q false InfoNone;
                  Timestep (1 # 2)%Q true InfoNone;
                  Timestep 0%Q false InfoOther].
Proof.
  destruct (steps_accounting
    (EpisodeTracker.run (EpisodeTracker.reset EpisodeTracker.__init__)
      [EpisodeTracker.CallStep (Timestep 1%Q false InfoNone);
       EpisodeTracker.CallStep (Timestep (1 # 2)%Q true InfoNone);
       EpisodeTracker.CallStep (Timestep 0%Q false InfoOther)]))
    as (s & Hs & Hnum & Hlen & _ & Hall).
  - apply episode_run_reachable, EpisodeTracker.reach_reset.
  - exists s. split; [exact Hs|]. split; [exact Hnum|]. split; [exact Hlen|].
    apply (Hall EpisodeTracker.__init__
             [Timestep 1%Q false InfoNone;
              Timestep (1 # 2)%Q true InfoNone;
              Timestep 0%Q false InfoOther]).
    rewrite <- Hs. reflexivity.
Defined.

Lemma episode_steps_called_nonneg (cs : list EpisodeTracker.call) :
  0 <= episode_steps_called cs.
Proof. induction cs as [|[ts|] cs IH]; simpl; lia. Qed.

Lemma episode_steps_called_app (cs1 cs2 : list EpisodeTracker.call) :
  episode_steps_called (cs1 ++ cs2)
  = episode_steps_called cs1 + episode_steps_called cs2.
Proof. induction cs1 as [|[ts|] cs1 IH]; simpl; lia. Qed.

Lemma episode_run_app (self : EpisodeTracker.t) (cs1 cs2 : list EpisodeTracker.call) :
  EpisodeTracker.run self (cs1 ++ cs2)
  = EpisodeTracker.run (EpisodeTracker.run self cs1) cs2.
Proof. revert self; induction cs1 as [|c cs1 IH]; intros self; simpl; auto. Qed.

(** Calls on a live tracker keep it live and count the steps. *)
Lemma episode_run_live (cs : list EpisodeTracker.call) :
  forall s : EpisodeTracker.fields,
  exists s', EpisodeTracker.run (Some s) cs = Some s' /\
    EpisodeTracker._num_steps_since_reset s' =
      EpisodeTracker._num_steps_since_reset s + episode_steps_called cs.
Proof.
  induction cs as [|c cs IH]; intros s.
  - exists s. simpl. split; [reflexivity|lia].
  - destruct c as [ts|]; cbn [EpisodeTracker.run EpisodeTracker.exec].
    + unfold EpisodeTracker.step.
      destruct (ts_done ts); cbn [fst];
        match goal with |- context [EpisodeTracker.run (Some ?x) cs] =>
          destruct (IH x) as (s' & Hrun & Hnum) end;
        exists s'; (split; [exact Hrun|]); rewrite Hnum; simpl; lia.
    + destruct (EpisodeTracker.get (Some s)); cbn [fst];
        destruct (IH s) as (s' & Hrun & Hnum); exists s';
        (split; [exact Hrun|]); rewrite Hnum; simpl; lia.
Qed.

End EpisodeTrackerFacts.

Section StepRateTrackerFacts.

Import TrackerSpec.
Local Open Scope Z_scope.

Lemma rate_steps_called_nonneg (cs : list StepRateTracker.call) :
  0 <= rate_steps_called cs.
Proof. induction cs as [|[ts|now] cs IH]; simpl; lia. Qed.

Lemma rate_steps_called_app (cs1 cs2 : list StepRateTracker.call) :
  rate_steps_called (cs1 ++ cs2)
  = rate_steps_called cs1 + rate_steps_called cs2.
Proof. induction cs1 as [|[ts|now] cs1 IH]; simpl; lia. Qed.

Lemma rate_run_app (self : StepRateTracker.t) (cs1 cs2 : list StepRateTracker.call) :
  StepRateTracker.run self (cs1 ++ cs2)
  = StepRateTracker.run (StepRateTracker.run self cs1) cs2.
Proof. revert self; induction cs1 as [|c cs1 IH]; intros self; simpl; auto. Qed.

Lemma rate_run_live (cs : list StepRateTracker.call) :
  forall s : StepRateTracker.fields,
  exists s', StepRateTracker.run (Some s) cs = Some s' /\
    StepRateTracker._num_steps_since_reset s' =
      StepRateTracker._num_steps_since_reset s + rate_steps_called cs.
Proof.
  induction cs as [|c cs IH]; intros s.
  - exists s. simpl. split; [reflexivity|lia].
  - destruct c as [ts|now]; cbn [StepRateTracker.run StepRateTracker.exec].
    + unfold StepRateTracker.step. cbn [fst].
      match goal with |- context [StepRateTracker.run (Some ?x) cs] =>
        destruct (IH x) as (s' & Hrun & Hnum) end.
      exists s'. split; [exact Hrun|]. rewrite Hnum. simpl. lia.
    + destruct (StepRateTracker.get (Some s) now); cbn [fst];
        destruct (IH s) as (s' & Hrun & Hnum); exists s';
        (split; [exact Hrun|]); rewrite Hnum; simpl; lia.
Qed.

Lemma rate_reachable_inv (self : StepRateTracker.t) :
  StepRateTracker.reachable self ->
  exists s, self = Some s /\ 0 <= StepRateTracker._num_steps_since_reset s.
Proof.
  induction 1 as [self now|self self' reward done info _ IH Hstep].
  - eexists; split; [reflexivity|]. simpl. lia.
  - destruct IH as (s & -> & Hpos). injection Hstep as <-.
    eexists; split; [reflexivity|]. simpl. lia.
Qed.

(** C6.  Between two [reset] calls [_num_steps_since_reset] never
    decreases: on a live [EpisodeTracker] or [StepRateTracker] every
    [step], whatever its [done] and [info], returns and adds exactly 1;
    after any sequence of [step] and [get] calls the counter is its value
    before plus the number of [step] calls, so along any sequence of calls
    it is non-decreasing. *)
Theorem num_steps_since_reset_monotone :
  (forall (s : EpisodeTracker.fields) reward done info,
     exists s', EpisodeTracker.step (Some s) reward done info = Ok (Some s') /\
       EpisodeTracker._num_steps_since_reset s' =
         EpisodeTracker._num_steps_since_reset s + 1) /\
  (forall (s : EpisodeTracker.fields) cs1 cs2,
     exists s1 s2,
       EpisodeTracker.run (Some s) cs1 = Some s1 /\
       EpisodeTracker.run (Some s) (cs1 ++ cs2) = Some s2 /\
       EpisodeTracker._num_steps_since_reset s2 =
         EpisodeTracker._num_steps_since_reset s1 + episode_steps_called cs2 /\
       EpisodeTracker._num_steps_since_reset s1
         <= EpisodeTracker._num_steps_since_reset s2) /\
  (forall (s : StepRateTracker.fields) reward done info,
     exists s', StepRateTracker.step (Some s) reward done info = Ok (Some s') /\
       StepRateTracker._num_steps_since_reset s' =
         StepRateTracker._num_steps_since_reset s + 1) /\
  (forall (s : StepRateTracker.fields) cs1 cs2,
     exists s1 s2,
       StepRateTracker.run (Some s) cs1 = Some s1 /\
       StepRateTracker.run (Some s) (cs1 ++ cs2) = Some s2 /\
       StepRateTracker._num_steps_since_reset s2 =
         StepRateTracker._num_steps_since_reset s1 + rate_steps_called cs2 /\
       StepRateTracker._num_steps_since_reset s1
         <= StepRateTracker._num_steps_since_reset s2).
Proof.
  repeat split.
  - intros s reward done info. unfold EpisodeTracker.step.
    destruct done; eexists; (split; [reflexivity|]); reflexivity.
  - intros s cs1 cs2.
    destruct (episode_run_live cs1 s) as (s1 & H1 & _).
    destruct (episode_run_live cs2 s1) as (s2 & H2 & Hnum).
    exists s1, s2. rewrite episode_run_app, H1. repeat split; auto.
    pose proof (episode_steps_called_nonneg cs2). lia.
  - intros s reward done info. eexists; split; reflexivity.
  - intros s cs1 cs2.
    destruct (rate_run_live cs1 s) as (s1 & H1 & _).
    destruct (rate_run_live cs2 s1) as (s2 & H2 & Hnum).
    exists s1, s2. rewrite rate_run_app, H1. repeat split; auto.
    pose proof (rate_steps_called_nonneg cs2). lia.
Qed.

(** C7.  On a [StepRateTracker] that [reset] and [step] calls produced,
    [get] divides only when a step was taken: with no step since [reset]
    it returns [step_rate = nan] for every clock reading, also one that
    makes the duration 0; with at least one step it returns
    [step_rate = _num_steps_since_reset / duration], and raises
    [ZeroDivisionError] when the duration is 0. *)
Theorem step_rate_guarded (self : StepRateTracker.t) (now : Q) :
  StepRateTracker.reachable self ->
  exists s, self = Some s /\
    0 <= StepRateTracker._num_steps_since_reset s /\
    (StepRateTracker._num_steps_since_reset s = 0 ->
       StepRateTracker.get self now =
         Ok {| StepRateTracker.step_rate := NaN;
               StepRateTracker.num_steps := 0;
               StepRateTracker.duration := (now - StepRateTracker._start s)%Q |}) /\
    (0 < StepRateTracker._num_steps_since_reset s ->
       ~ (now - StepRateTracker._start s == 0)%Q ->
       StepRateTracker.get self now =
         Ok {| StepRateTracker.step_rate :=
                 Num (inject_Z (StepRateTracker._num_steps_since_reset s)
                      / (now - StepRateTracker._start s))%Q;
               StepRateTracker.num_steps := StepRateTracker._num_steps_since_reset s;
               StepRateTracker.duration := (now - StepRateTracker._start s)%Q |}) /\
    (0 < StepRateTracker._num_steps_since_reset s ->
       (now - StepRateTracker._start s == 0)%Q ->
       StepRateTracker.get self now = Raise ZeroDivisionError).
Proof.
  intros Hreach.
  destruct (rate_reachable_inv self Hreach) as (s & -> & Hpos).
  exists s. split; [reflexivity|]. split; [exact Hpos|].
  unfold StepRateTracker.get, StepRateTracker.truediv. repeat split.
  - intros ->. reflexivity.
  - intros Hlt Hne.
    destruct (Z.ltb_spec 0 (StepRateTracker._num_steps_since_reset s)); [|lia].
    destruct (Qeq_bool (now - StepRateTracker._start s) 0) eqn:E.
    + apply Qeq_bool_iff in E. contradiction.
    + reflexivity.
  - intros Hlt Heq.
    destruct (Z.ltb_spec 0 (StepRateTracker._num_steps_since_reset s)); [|lia].
    apply Qeq_bool_iff in Heq. rewrite Heq. reflexivity.
Qed.

Lemma step_rate_guarded_witness :
  exists s,
    StepRateTracker.run (StepRateTracker.reset StepRateTracker.__init__ 10%Q)
      [StepRateTracker.CallStep (Timestep 1%Q false InfoNone)] = Some s /\
    0 <= StepRateTracker._num_steps_since_reset s /\
    (StepRateTracker._num_steps_since_reset s = 0 ->
       StepRateTracker.get (Some s) 12%Q =
         Ok {| StepRateTracker.step_rate := NaN;
               StepRateTracker.num_steps := 0;
               StepRateTracker.duration := (12 - StepRateTracker._start s)%Q |}) /\
    (0 < StepRateTracker._num_steps_since_reset s ->
       ~ (12 - StepRateTracker._start s == 0)%Q ->
       StepRateTracker.get (Some s) 12%Q =
         Ok {| StepRateTracker.step_rate :=
                 Num (inject_Z (StepRateTracker._num_steps_since_reset s)
                      / (12 - StepRateTracker._start s))%Q;
               StepRateTracker.num_steps := StepRateTracker._num_steps_since_reset s;
               StepRateTracker.duration := (12 - StepRateTracker._start s)%Q |}) /\
    (0 < StepRateTracker._num_steps_since_reset s ->
       (12 - StepRateTracker._start s == 0)%Q ->
       StepRateTracker.get (Some s) 12%Q = Raise ZeroDivisionError).
Proof.
  destruct (step_rate_guarded
    (StepRateTracker.run (StepRateTracker.reset StepRateTracker.__init__ 10%Q)
       [StepRateTracker.CallStep (Timestep 1%Q false InfoNone)]) 12%Q)
    as (s & Hs & H).
  - apply (StepRateTracker.reach_step
             (StepRateTracker.reset StepRateTracker.__init__ 10%Q)
             _ 1%Q false InfoNone);
      [apply StepRateTracker.reach_reset | reflexivity].
  - exists s. split; [exact Hs|]. rewrite <- Hs. exact H.
Defined.

End StepRateTrackerFacts.

(** ** CSV writer *)

Section CsvWriterFacts.

Import CsvWriter.

Lemma exists_empty (w : world) : Os.exists_ w "" = false.
Proof. reflexivity. Qed.

Lemma makedirs_empty (w : world) : Os.makedirs w "" = Raise FileNotFoundError.
Proof. reflexivity. Qed.

(** A directory that [makedirs] made exists. *)
Lemma makedirs_exists (w w' : world) (name : string) :
  Os.makedirs w name = Ok w' ->
  Os.exists_ w' name = true /\ files w' = files w /\ heap w' = heap w.
Proof.
  unfold Os.makedirs.
  destruct (String.eqb name "") eqn:Hname; [discriminate|].
  destruct (existsb (Os.is_file w) (Os.ancestors name)); [discriminate|].
  destruct (Os.exists_ w name); [discriminate|].
  intros [= <-]. repeat split.
  unfold Os.exists_, Os.is_dir. rewrite Hname. cbn [negb andb dirs].
  rewrite (bool_decide_eq_true_2 _); [|set_solver].
  now rewrite orb_true_r.
Qed.

(** What holds when the constructor returns. *)
Lemma init_returns (w w' : world) (fname : string) (self : t) :
  __init__ w fname = Ok (self, w') ->
  Os.dirname fname <> ""%string /\
  Os.exists_ w' (Os.dirname fname) = true /\
  (Os.exists_ w (Os.dirname fname) = true -> w' = w) /\
  files w' = files w /\
  self = {| _fname := fname; _header_written := false; _fieldnames := None |}.
Proof.
  unfold __init__.
  destruct (Os.exists_ w (Os.dirname fname)) eqn:Hex; cbn [negb].
  - rewrite bind_Ok. intros [= <- <-]. repeat split; auto.
    intros Hd. rewrite Hd in Hex. discriminate Hex.
  - destruct (Os.makedirs w (Os.dirname fname)) as [w1|e] eqn:Hmk;
      [|discriminate].
    rewrite bind_Ok. intros [= <- <-].
    destruct (makedirs_exists _ _ _ Hmk) as (He & Hf & _).
    repeat split; auto; [|discriminate].
    intros Hd. rewrite Hd in Hmk. discriminate Hmk.
Qed.

(** C9.  [CsvWriter(fname)] with a file name whose directory part is
    empty, such as ['results.csv'], raises the [FileNotFoundError] of
    [os.makedirs('')], and no writer exists that could write; when the
    constructor returns, the directory part is not empty, it exists
    afterwards (it is left alone when it existed before), and nothing has
    been written. *)
Theorem init_requires_directory (w : world) (fname : string) :
  (Os.dirname fname = ""%string ->
   __init__ w fname = Raise FileNotFoundError) /\
  (forall self w', __init__ w fname = Ok (self, w') ->
     Os.dirname fname <> ""%string /\
     Os.exists_ w' (Os.dirname fname) = true /\
     (Os.exists_ w (Os.dirname fname) = true -> w' = w) /\
     files w' = files w /\
     self = {| _fname := fname; _header_written := false;
               _fieldnames := None |}) /\
  Os.dirname "results.csv" = ""%string.
Proof.
  split; [|split; [|reflexivity]].
  - unfold __init__. intros ->. reflexivity.
  - intros self w'. apply init_returns.
Qed.

Lemma init_requires_directory_witness :
  Os.dirname "results.csv" = ""%string /\
  __init__ empty_world "results.csv" = Raise FileNotFoundError /\
  exists self w', __init__ empty_world "logs/results.csv" = Ok (self, w') /\
    Os.dirname "logs/results.csv" <> ""%string /\
    Os.exists_ w' (Os.dirname "logs/results.csv") = true.
Proof.
  split; [reflexivity|]. split.
  - apply (proj1 (init_requires_directory empty_world "results.csv")).
    reflexivity.
  - destruct (__init__ empty_world "logs/results.csv") as [[self w']|e] eqn:E;
      [|discriminate E].
    exists self, w'. split; [reflexivity|].
    destruct (proj1 (proj2 (init_requires_directory empty_world
                              "logs/results.csv")) self w' E) as (H1 & H2 & _).
    split; assumption.
Defined.

Lemma file_content_open (w w1 : world) (f : string) :
  Os.open_append w f = Ok w1 ->
  file_content w1 f = file_content w f /\ heap w1 = heap w.
Proof.
  unfold Os.open_append.
  repeat match goal with
         | |- context [if ?b then _ else _] => destruct b
         end; try discriminate.
  intros [= <-]. split; [|reflexivity].
  unfold file_content at 1. cbn [files]. now rewrite lookup_insert_eq.
Qed.

Lemma file_content_append (w : world) (f : string) (l : csv_line) :
  file_content (Os.append_line w f l) f = file_content w f ++ [l].
Proof.
  unfold file_content at 1, Os.append_line. cbn [files].
  now rewrite lookup_insert_eq.
Qed.

(** A record passes the consistency check against its own keys. *)
Lemma _dict_to_list_self (d : record) :
  _dict_to_list (keys d) d = Ok (map (get_or_empty d) (keys d)).
Proof.
  unfold _dict_to_list.
  assert (H : forallb (fun k => bool_decide (k ∈ keys d)) (keys d) = true).
  { apply forallb_forall. intros k Hk. apply bool_decide_eq_true.
    now apply list_elem_of_In. }
  now rewrite H.
Qed.

Lemma header_rows_rows (rows : list (list string)) :
  header_rows (map RowLine rows) = [].
Proof. induction rows; simpl; auto. Qed.

Lemma data_rows_rows (rows : list (list string)) :
  data_rows (map RowLine rows) = map RowLine rows.
Proof. induction rows; simpl; [reflexivity|]. now f_equal. Qed.

(** Once the header is written, a [write] that returns appends one data
    row and a [write] that raises appends nothing. *)
Lemma write_after_header (self self' : t) (w w' : world) (a : nat) (r : result unit) :
  _header_written self = true ->
  write self w a = (self', w', r) ->
  _header_written self' = true /\ _fname self' = _fname self /\
  exists rows, file_content w' (_fname self)
               = file_content w (_fname self) ++ map RowLine rows /\
               length rows = length (List.filter is_ok [r]).
Proof.
  intros Hhw. unfold write. rewrite Hhw. cbn [negb].
  destruct (Os.open_append w (_fname self)) as [w1|e] eqn:Hopen.
  - destruct (file_content_open _ _ _ Hopen) as [Hfc _].
    destruct (_dict_to_list _ _) as [cells|e]; intros [= <- <- <-];
      (split; [reflexivity|split; [reflexivity|]]).
    + exists [cells]. rewrite file_content_append, Hfc. split; reflexivity.
    + exists []. rewrite Hfc, app_nil_r. split; reflexivity.
  - intros [= <- <- <-]. split; [reflexivity|split; [reflexivity|]].
    exists []. rewrite app_nil_r. split; reflexivity.
Qed.

(** The first [write] of a new writer, when it returns: the header, made
    of the keys of its record, and one data row. *)
Lemma write_first (self self' : t) (w w' : world) (a : nat) :
  _header_written self = false ->
  _fieldnames self = None ->
  write self w a = (self', w', Ok ()) ->
  _header_written self' = true /\ _fname self' = _fname self /\
  exists cells, file_content w' (_fname self)
                = file_content w (_fname self)
                  ++ [HeaderLine (keys (deref w a)); RowLine cells].
Proof.
  intros Hhw Hfn. unfold write. rewrite Hhw, Hfn. cbn [negb].
  destruct (Os.open_append w (_fname self)) as [w1|e] eqn:Hopen;
    [|discriminate].
  destruct (file_content_open _ _ _ Hopen) as [Hfc _].
  rewrite _dict_to_list_self. intros [= <- <-].
  split; [reflexivity|split; [reflexivity|]].
  eexists. rewrite !file_content_append, Hfc, <- app_assoc. reflexivity.
Qed.

Lemma run_outcomes (evs : list event) :
  forall self w, length (run self w evs).2 = writes_called evs.
Proof.
  induction evs as [|[a d|a] evs IH]; intros self w; cbn [run writes_called];
    [reflexivity|apply IH|].
  destruct (write self w a) as [[self1 w1] r].
  specialize (IH self1 w1). destruct (run self1 w1 evs) as [[self2 w2] rs].
  simpl in *. now f_equal.
Qed.

(** After the header, the data rows appended are as many as the calls
    that returned. *)
Lemma run_after_header (evs : list event) :
  forall self w self' w' outs,
  _header_written self = true ->
  run self w evs = (self', w', outs) ->
  exists rows, file_content w' (_fname self)
               = file_content w (_fname self) ++ map RowLine rows /\
               length rows = length (List.filter is_ok outs).
Proof.
  induction evs as [|[a d|a] evs IH]; intros self w self' w' outs Hhw;
    cbn [run].
  - intros [= <- <- <-]. exists []. now rewrite app_nil_r.
  - intros Hrun. apply (IH _ _ _ _ _ Hhw Hrun).
  - destruct (write self w a) as [[self1 w1] r] eqn:Hw.
    destruct (run self1 w1 evs) as [[self2 w2] rs] eqn:Hr.
    intros [= <- <- <-].
    destruct (write_after_header _ _ _ _ _ _ Hhw Hw)
      as (Hhw1 & Hf1 & rows1 & Hfc1 & Hlen1).
    destruct (IH _ _ _ _ _ Hhw1 Hr) as (rows2 & Hfc2 & Hlen2).
    rewrite Hf1 in Hfc2. exists (rows1 ++ rows2).
    rewrite Hfc2, Hfc1, map_app, <- app_assoc. split; [reflexivity|].
    rewrite length_app, Hlen1, Hlen2.
    change (r :: rs) with ([r] ++ rs). now rewrite List.filter_app, length_app.
Qed.

Lemma header_rows_app (l1 l2 : list csv_line) :
  header_rows (l1 ++ l2) = header_rows l1 ++ header_rows l2.
Proof. apply List.filter_app. Qed.

Lemma data_rows_app (l1 l2 : list csv_line) :
  data_rows (l1 ++ l2) = data_rows l1 ++ data_rows l2.
Proof. apply List.filter_app. Qed.

Lemma calls_returned_cons (r : result unit) (rs : list (result unit)) :
  calls_returned (r :: rs) = (calls_returned [r] + calls_returned rs)%nat.
Proof. unfold calls_returned. simpl. destruct (is_ok r); reflexivity. Qed.

(** Any [write]: a data row is appended exactly when the call returns,
    and a header row exactly when the call is the one that sets
    [_header_written]. *)
Lemma write_appends (self self' : t) (w w' : world) (a : nat) (r : result unit) :
  write self w a = (self', w', r) ->
  _fname self' = _fname self /\
  exists app,
    file_content w' (_fname self) = file_content w (_fname self) ++ app /\
    length (data_rows app) = calls_returned [r] /\
    (length (header_rows app) + Nat.b2n (_header_written self))%nat
    = Nat.b2n (_header_written self').
Proof.
  unfold write.
  destruct (Os.open_append w (_fname self)) as [w1|e] eqn:Hopen.
  - destruct (file_content_open _ _ _ Hopen) as [Hfc _].
    destruct (_dict_to_list _ _) as [cells|e]; intros [= <- <- <-];
      (split; [reflexivity|]); cbn [_header_written];
      destruct (_header_written self); cbn [negb];
      rewrite ?file_content_append, Hfc, <- ?app_assoc;
      eexists; (split; [try reflexivity|]).
    + split; reflexivity.
    + split; reflexivity.
    + instantiate (1 := []). now rewrite app_nil_r.
    + split; reflexivity.
    + split; reflexivity.
  - intros [= <- <- <-]. split; [reflexivity|].
    exists []. rewrite app_nil_r. cbn [_header_written].
    repeat split.
Qed.

(** Any sequence of events: the data rows appended are as many as the
    calls that returned, and the header rows appended are accounted for by
    [_header_written]. *)
Lemma run_appends (evs : list event) :
  forall self w self' w' outs,
  run self w evs = (self', w', outs) ->
  exists app,
    file_content w' (_fname self) = file_content w (_fname self) ++ app /\
    length (data_rows app) = calls_returned outs /\
    (length (header_rows app) + Nat.b2n (_header_written self))%nat
    = Nat.b2n (_header_written self').
Proof.
  induction evs as [|[a d|a] evs IH]; intros self w self' w' outs; cbn [run].
  - intros [= <- <- <-]. exists []. now rewrite app_nil_r.
  - intros Hrun. apply (IH _ _ _ _ _ Hrun).
  - destruct (write self w a) as [[self1 w1] r] eqn:Hw.
    destruct (run self1 w1 evs) as [[self2 w2] rs] eqn:Hr.
    intros [= <- <- <-].
    destruct (write_appends _ _ _ _ _ _ Hw) as (Hf1 & app1 & Hfc1 & Hd1 & Hh1).
    destruct (IH _ _ _ _ _ Hr) as (app2 & Hfc2 & Hd2 & Hh2).
    rewrite Hf1 in Hfc2. exists (app1 ++ app2).
    rewrite Hfc2, Hfc1, <- app_assoc. split; [reflexivity|].
    rewrite data_rows_app, header_rows_app, !length_app, calls_returned_cons.
    lia.
Qed.

(** A new writer whose calls all return: the header of the first record,
    then one data row per call. *)
Lemma run_new_writer (evs : list event) :
  forall self w self' w' outs,
  _header_written self = false ->
  _fieldnames self = None ->
  run self w evs = (self', w', outs) ->
  outs <> [] ->
  forallb is_ok outs = true ->
  exists hdr rows,
    file_content w' (_fname self)
    = file_content w (_fname self) ++ HeaderLine hdr :: map RowLine rows /\
    first_record_keys w evs = Some hdr /\
    length rows = length outs.
Proof.
  induction evs as [|[a d|a] evs IH];
    intros self w self' w' outs Hhw Hfn; cbn [run first_record_keys].
  - intros [= <- <- <-] Hne. now destruct Hne.
  - intros Hrun Hne Hok. apply (IH _ _ _ _ _ Hhw Hfn Hrun Hne Hok).
  - destruct (write self w a) as [[self1 w1] r] eqn:Hw.
    destruct (run self1 w1 evs) as [[self2 w2] rs] eqn:Hr.
    intros [= <- <- <-] _ Hok. cbn [forallb] in Hok.
    apply andb_prop in Hok as [Hr1 Hrs].
    destruct r as [[]|e]; [|discriminate Hr1].
    destruct (write_first _ _ _ _ _ Hhw Hfn Hw) as (Hhw1 & Hf1 & cells & Hfc1).
    destruct (run_after_header _ _ _ _ _ _ Hhw1 Hr) as (rows & Hfc2 & Hlen).
    rewrite Hf1 in Hfc2. exists (keys (deref w a)), (cells :: rows).
    rewrite Hfc2, Hfc1, <- app_assoc. split; [reflexivity|].
    split; [reflexivity|]. cbn [length]. rewrite Hlen. f_equal.
    clear -Hrs. induction rs as [|x rs IH]; [reflexivity|].
    cbn [forallb] in Hrs. apply andb_prop in Hrs as [Hx Hrs].
    cbn [List.filter]. rewrite Hx. cbn [length]. f_equal. auto.
Qed.

(** Whether [open] succeeds is decided by the path and the directories. *)
Lemma open_append_same_dirs (w w' : world) (f : string) :
  dirs w' = dirs w ->
  is_ok (Os.open_append w' f) = is_ok (Os.open_append w f).
Proof.
  intros Hd. unfold Os.open_append, Os.is_dir. rewrite Hd.
  repeat match goal with
         | |- context [if ?b then _ else _] => destruct b
         end; reflexivity.
Qed.

(** When the file cannot be opened, no call returns and nothing is
    written. *)
Lemma run_unopenable (evs : list event) :
  forall self w self' w' outs,
  is_ok (Os.open_append w (_fname self)) = false ->
  run self w evs = (self', w', outs) ->
  file_content w' (_fname self) = file_content w (_fname self) /\
  calls_returned outs = 0%nat.
Proof.
  induction evs as [|[a d|a] evs IH]; intros self w self' w' outs Hopen;
    cbn [run].
  - intros [= <- <- <-]. split; reflexivity.
  - intros Hrun.
    assert (Hopen' : is_ok (Os.open_append (assign w a d) (_fname self)) = false).
    { rewrite <- Hopen. now apply open_append_same_dirs. }
    destruct (IH _ _ _ _ _ Hopen' Hrun) as [Hfc Hn].
    split; [exact Hfc|exact Hn].
  - destruct (write self w a) as [[self1 w1] r] eqn:Hw.
    destruct (run self1 w1 evs) as [[self2 w2] rs] eqn:Hr.
    intros [= <- <- <-].
    revert Hw. unfold write.
    destruct (Os.open_append w (_fname self)) as [wo|e] eqn:Ho;
      [discriminate Hopen|].
    intros [= <- <- <-]. cbn [_fname] in Hr.
    assert (Hopen1 : is_ok (Os.open_append w
              (_fname {| _fname := _fname self;
                         _header_written := _header_written self;
                         _fieldnames :=
                           Some match _fieldnames self with
                                | Some a0 => a0
                                | None => a
                                end |})) = false).
    { cbn [_fname]. now rewrite Ho. }
    destruct (IH _ _ _ _ _ Hopen1 Hr) as [Hfc Hn].
    split; [exact Hfc|].
    rewrite calls_returned_cons, Hn. reflexivity.
Qed.

(** A new writer, whatever its calls do: as many data rows as calls that
    returned; and as soon as one call returned, the content appended is
    the header of the first record followed by the data rows. *)
Lemma run_first_header (evs : list event) :
  forall self w self' w' outs,
  _header_written self = false ->
  _fieldnames self = None ->
  run self w evs = (self', w', outs) ->
  exists appended,
    file_content w' (_fname self) = file_content w (_fname self) ++ appended /\
    length (data_rows appended) = calls_returned outs /\
    (calls_returned outs = 0%nat -> appended = []) /\
    ((1 <= calls_returned outs)%nat ->
     exists hdr rows,
       first_record_keys w evs = Some hdr /\
       appended = HeaderLine hdr :: map RowLine rows /\
       length rows = calls_returned outs).
Proof.
  induction evs as [|[a d|a] evs IH];
    intros self w self' w' outs Hhw Hfn; cbn [run first_record_keys].
  - intros [= <- <- <-]. exists []. rewrite app_nil_r.
    split; [reflexivity|]. split; [reflexivity|]. split; [reflexivity|].
    unfold calls_returned. simpl. lia.
  - intros Hrun. apply (IH _ _ _ _ _ Hhw Hfn Hrun).
  - destruct (write self w a) as [[self1 w1] r] eqn:Hw.
    destruct (run self1 w1 evs) as [[self2 w2] rs] eqn:Hr.
    intros [= <- <- <-].
    destruct r as [[]|e].
    + destruct (write_first _ _ _ _ _ Hhw Hfn Hw) as (Hhw1 & Hf1 & cells & Hfc1).
      destruct (run_after_header _ _ _ _ _ _ Hhw1 Hr) as (rows & Hfc2 & Hlen).
      rewrite Hf1 in Hfc2.
      exists (HeaderLine (keys (deref w a)) :: map RowLine (cells :: rows)).
      rewrite Hfc2, Hfc1, <- app_assoc.
      split; [reflexivity|].
      assert (Hcount : length (cells :: rows) = calls_returned (Ok () :: rs)).
      { rewrite calls_returned_cons. cbn [length]. rewrite Hlen. reflexivity. }
      split; [|split].
      * unfold data_rows. cbn [List.filter is_header negb].
        fold (data_rows (map RowLine (cells :: rows))).
        now rewrite data_rows_rows, length_map.
      * rewrite <- Hcount. discriminate.
      * intros _. exists (keys (deref w a)), (cells :: rows).
        split; [reflexivity|]. split; [reflexivity|exact Hcount].
    + revert Hw. unfold write.
      destruct (Os.open_append w (_fname self)) as [wo|e0] eqn:Ho.
      * rewrite Hhw, Hfn. cbn [negb]. rewrite _dict_to_list_self. discriminate.
      * intros [= <- <- <-].
        edestruct (run_unopenable evs) as [Hfc Hn]; [|exact Hr|].
        { cbn [_fname]. now rewrite Ho. }
        cbn [_fname] in Hfc.
        exists []. rewrite app_nil_r. split; [exact Hfc|].
        rewrite calls_returned_cons, Hn.
        split; [reflexivity|]. split; [reflexivity|].
        unfold calls_returned. simpl. lia.
Qed.

Lemma calls_returned_all (outs : list (result unit)) :
  forallb is_ok outs = true -> calls_returned outs = length outs.
Proof.
  unfold calls_returned. induction outs as [|x outs IH]; [reflexivity|].
  cbn [forallb]. intros H. apply andb_prop in H as [Hx Hrs].
  cbn [List.filter]. rewrite Hx. cbn [length]. f_equal. auto.
Qed.

(** C2, with the calls that raise set apart.  For a writer made by the
    constructor and [n] calls of [write] on it, the data rows appended to
    its file are as many as the calls that returned without raising, [n]
    when all of them return.  Whenever at least one call returned, the
    content appended is exactly one header row, holding the keys of the
    first record passed to [write], followed by those data rows; when no
    call returned, nothing is appended. *)
Theorem csv_one_header_then_one_row_per_write
    (w0 w w' : world) (fname : string) (self self' : t)
    (evs : list event) (outs : list (result unit)) :
  __init__ w0 fname = Ok (self, w) ->
  run self w evs = (self', w', outs) ->
  length outs = writes_called evs /\
  exists appended,
    file_content w' fname = file_content w fname ++ appended /\
    length (data_rows appended) = calls_returned outs /\
    (forallb is_ok outs = true ->
     length (data_rows appended) = writes_called evs) /\
    (calls_returned outs = 0%nat -> appended = []) /\
    ((1 <= calls_returned outs)%nat ->
     exists hdr rows,
       first_record_keys w evs = Some hdr /\
       appended = HeaderLine hdr :: map RowLine rows /\
       header_rows appended = [HeaderLine hdr] /\
       data_rows appended = map RowLine rows /\
       length rows = calls_returned outs).
Proof.
  intros Hinit Hrun.
  destruct (init_returns _ _ _ _ Hinit) as (_ & _ & _ & _ & ->).
  pose proof (run_outcomes evs
    {| _fname := fname; _header_written := false; _fieldnames := None |} w)
    as Hlen.
  rewrite Hrun in Hlen. cbn [snd] in Hlen.
  split; [exact Hlen|].
  destruct (run_first_header evs
              {| _fname := fname; _header_written := false; _fieldnames := None |}
              w self' w' outs eq_refl eq_refl Hrun)
    as (appended & Hfc & Hd & Hnone & Hsome).
  cbn [_fname] in Hfc.
  exists appended. split; [exact Hfc|]. split; [exact Hd|].
  split; [|split; [exact Hnone|]].
  - intros Hok. now rewrite Hd, (calls_returned_all _ Hok).
  - intros Hone. destruct (Hsome Hone) as (hdr & rows & Hkeys & Happ & Hrows).
    exists hdr, rows. split; [exact Hkeys|]. split; [exact Happ|].
    rewrite Happ. unfold header_rows, data_rows.
    cbn [List.filter is_header negb].
    fold (header_rows (map RowLine rows)). fold (data_rows (map RowLine rows)).
    rewrite header_rows_rows, data_rows_rows.
    split; [reflexivity|]. split; [reflexivity|exact Hrows].
Qed.

Lemma csv_one_header_then_one_row_per_write_witness :
  exists hdr rows,
    file_content (run example_writer example_world consistent_events).1.2
      example_log
    = file_content example_world example_log
      ++ HeaderLine hdr :: map RowLine rows /\
    first_record_keys example_world consistent_events = Some hdr /\
    length rows = writes_called consistent_events.
Proof.
  destruct (csv_one_header_then_one_row_per_write
              empty_world example_world
              (run example_writer example_world consistent_events).1.2
              example_log example_writer
              (run example_writer example_world consistent_events).1.1
              consistent_events
              (run example_writer example_world consistent_events).2)
    as (_ & appended & Hfc & _ & _ & _ & H).
  - reflexivity.
  - now destruct (run example_writer example_world consistent_events)
      as [[self' w'] outs].
  - destruct H as (hdr & rows & H1 & H2 & _ & _ & H3).
    + vm_compute. lia.
    + exists hdr, rows. rewrite Hfc, H2.
      split; [reflexivity|]. split; [exact H1|]. rewrite H3. reflexivity.
Defined.

(** C2 as stated fails when a call raises: the writer checks every record
    against the field names of the first one, and a record with another
    key is rejected with [ValueError] and not written.  Two calls, one
    data row. *)
Lemma csv_rejected_record_is_not_a_row :
  __init__ empty_world example_log = Ok (example_writer, example_world) /\
  writes_called inconsistent_events = 2%nat /\
  (run example_writer example_world inconsistent_events).2
  = [Ok (); Raise ValueError] /\
  file_content (run example_writer example_world inconsistent_events).1.2
    example_log
  = [HeaderLine ["a"%string]; RowLine ["1"%string]] /\
  length (data_rows
    (file_content (run example_writer example_world inconsistent_events).1.2
       example_log)) = 1%nat.
Proof. repeat split. Qed.

End CsvWriterFacts.

(** * Further properties of the code *)

(** ** Coordinates: decoding, errors and indices *)

Section CoordsMore.

Import CoordsConvertor CoordsSpec.
Local Open Scope Z_scope.

(** A negative index inside the string counts from its end. *)
Lemma str_getitem_negative (s : string) (i : Z) :
  - Z.of_nat (String.length s) <= i < 0 ->
  str_getitem s i = str_getitem s (i + Z.of_nat (String.length s)).
Proof.
  intros Hi. unfold str_getitem.
  destruct (Z.ltb_spec i 0); [|lia].
  destruct (Z.ltb_spec (i + Z.of_nat (String.length s)) 0); [lia|].
  reflexivity.
Qed.

Lemma str_getitem_outside (s : string) (i : Z) :
  i < - Z.of_nat (String.length s) \/ Z.of_nat (String.length s) <= i ->
  str_getitem s i = Raise IndexError.
Proof.
  intros [Hi|Hi]; [|now apply str_getitem_beyond].
  unfold str_getitem. destruct (Z.ltb_spec i 0); [|lia].
  destruct (Z.leb_spec 0 (i + Z.of_nat (String.length s))); [lia|].
  reflexivity.
Qed.

(** What [index] returns is a position of the character. *)
Lemma str_index_from_sound (s : string) :
  forall (k i : Z) (c : ascii),
    str_index_from k s c = Ok i ->
    k <= i < k + Z.of_nat (String.length s) /\
    String.get (Z.to_nat (i - k)) s = Some c.
Proof.
  induction s as [|a s IH]; intros k i c; simpl; [discriminate|].
  destruct (Ascii.eqb_spec a c) as [->|Hne].
  - intros [= <-]. rewrite Z.sub_diag. simpl. split; [lia|reflexivity].
  - intros H. apply IH in H as [Hi Hget]. split; [lia|].
    replace (Z.to_nat (i - k)) with (S (Z.to_nat (i - (k + 1)))) by lia.
    exact Hget.
Qed.

Lemma str_index_sound (s : string) (i : Z) (c : ascii) :
  str_index s c = Ok i ->
  0 <= i < Z.of_nat (String.length s) /\ String.get (Z.to_nat i) s = Some c.
Proof.
  intros H. apply str_index_from_sound in H as [Hi Hget].
  rewrite Z.sub_0_r in Hget. split; [lia|exact Hget].
Qed.

(** A character that does not occur is a [ValueError]. *)
Lemma str_index_from_absent (s : string) :
  forall (k : Z) (c : ascii),
    ~ In c (chars s) -> str_index_from k s c = Raise ValueError.
Proof.
  induction s as [|a s IH]; intros k c Hc; simpl; [reflexivity|].
  destruct (Ascii.eqb_spec a c) as [->|Hne].
  - exfalso. apply Hc. now left.
  - apply IH. intros Hin. apply Hc. now right.
Qed.

Lemma str_index_raises (s : string) (c : ascii) (e : exn) :
  str_index s c = Raise e -> e = ValueError /\ ~ In c (chars s).
Proof.
  unfold str_index. generalize 0. induction s as [|a s IH]; intros k; simpl.
  - intros [= <-]. split; [reflexivity|tauto].
  - destruct (Ascii.eqb_spec a c) as [->|Hne]; [discriminate|].
    intros H. apply IH in H as [-> Hc]. split; [reflexivity|].
    intros [Heq|Hin]; [now apply Hne|now apply Hc].
Qed.

Lemma str_getitem_second (a b : ascii) (rest : string) :
  str_getitem (String a (String b rest)) 1 = Ok b.
Proof.
  unfold str_getitem. change (1 <? 0) with false. cbv iota.
  change (0 <=? 1) with true.
  destruct (Z.ltb_spec 1 (Z.of_nat (String.length (String a (String b rest)))))
    as [_|H].
  - reflexivity.
  - simpl String.length in H. lia.
Qed.

(** X1.  [from_flat] inverts [to_flat] on the board: for pass and for
    every point [(r, k)] with [0 <= r, k < N],
    [from_flat(to_flat(c)) = c], and no exception is raised. *)
Theorem from_flat_to_flat (N : Z) (c : coord) :
  on_board N c -> from_flat N (to_flat N c) = Ok c.
Proof.
  destruct c as [[r k]|]; simpl.
  - intros [Hr Hk]. unfold from_flat.
    destruct (Z.eqb_spec (N * r + k) (N * N)) as [Heq|_]; [nia|].
    destruct (Z.eqb_spec N 0) as [->|HN]; [lia|].
    assert (Hq : r = (N * r + k) / N)
      by (apply (Z.div_unique _ _ r k); [lia|reflexivity]).
    assert (Hm : k = (N * r + k) mod N)
      by (apply (Z.mod_unique _ _ r k); [lia|reflexivity]).
    now rewrite <- Hq, <- Hm.
  - intros _. unfold from_flat. now rewrite Z.eqb_refl.
Qed.

Lemma from_flat_to_flat_witness :
  from_flat 9 (to_flat 9 (Some (8, 3))) = Ok (Some (8, 3)).
Proof. apply (from_flat_to_flat 9 (Some (8, 3))). simpl. lia. Defined.

(** X2.  On a board of positive size [from_flat] checks no range: every
    flat value other than [N*N] is decoded without an exception to a
    point whose column is in [0 .. N-1], and that point is on the board
    exactly when [0 <= x < N*N]. *)
Theorem from_flat_unchecked (N x : Z) :
  0 < N -> x <> N * N ->
  exists r k, from_flat N x = Ok (Some (r, k)) /\
    0 <= k < N /\
    (on_board N (Some (r, k)) <-> 0 <= x < N * N).
Proof.
  intros HN Hx. unfold from_flat.
  destruct (Z.eqb_spec x (N * N)); [contradiction|].
  destruct (Z.eqb_spec N 0); [lia|].
  exists (x / N), (x mod N). split; [reflexivity|].
  pose proof (Z.mod_pos_bound x N HN) as Hm.
  pose proof (Z.div_mod x N ltac:(lia)) as Hdm.
  split; [exact Hm|]. simpl. split.
  - intros [Hr _]. nia.
  - intros Hx'. split; [|exact Hm]. split.
    + apply Z.div_pos; lia.
    + apply Z.div_lt_upper_bound; lia.
Qed.

Lemma from_flat_unchecked_witness :
  exists r k, from_flat 9 100 = Ok (Some (r, k)) /\
    0 <= k < 9 /\
    (on_board 9 (Some (r, k)) <-> 0 <= 100 < 9 * 9).
Proof. apply (from_flat_unchecked 9 100); lia. Defined.

(** X3.  What [from_sgf] decodes, [to_sgf] encodes back: when [from_sgf]
    returns a point, the string starts with two characters of
    [_SGF_COLUMNS], row and column are in [0 .. 51], and [to_sgf] of the
    point is those two characters; what follows them in the string is
    ignored. *)
Theorem to_sgf_from_sgf (N r k : Z) (s : string) :
  from_sgf N (Some s) = Ok (Some (r, k)) ->
  exists a b rest,
    s = String a (String b rest) /\
    0 <= r < 52 /\ 0 <= k < 52 /\
    to_sgf (Some (r, k)) = Ok (String a (String b EmptyString)).
Proof.
  unfold from_sgf.
  destruct (String.eqb s "" || (N <=? 19) && String.eqb s "tt");
    [discriminate|].
  destruct s as [|a [|b rest]]; [discriminate|discriminate|].
  rewrite str_getitem_second, bind_Ok, str_getitem_head.
  destruct (str_index _SGF_COLUMNS b) as [row|e] eqn:Hb; [|discriminate].
  rewrite !bind_Ok.
  destruct (str_index _SGF_COLUMNS a) as [col|e] eqn:Ha; [|discriminate].
  rewrite bind_Ok. intros [= <- <-].
  apply str_index_sound in Ha as [Hcol Ga], Hb as [Hrow Gb].
  rewrite sgf_columns_length in Hcol, Hrow.
  exists a, b, rest. repeat split; try lia.
  unfold to_sgf.
  destruct (str_getitem_inside _SGF_COLUMNS col) as (a' & Ha' & Ga');
    [now rewrite sgf_columns_length|].
  destruct (str_getitem_inside _SGF_COLUMNS row) as (b' & Hb' & Gb');
    [now rewrite sgf_columns_length|].
  rewrite Ha', bind_Ok, Hb', bind_Ok. congruence.
Qed.

Lemma to_sgf_from_sgf_witness :
  exists a b rest,
    "dp"%string = String a (String b rest) /\
    0 <= 15 < 52 /\ 0 <= 3 < 52 /\
    to_sgf (Some (15, 3)) = Ok (String a (String b EmptyString)).
Proof. apply (to_sgf_from_sgf 19 15 3 "dp"). reflexivity. Defined.

(** X4.  The errors of [from_sgf]: a string of one character raises
    [IndexError], and a string one of whose first two characters is not in
    [_SGF_COLUMNS] raises [ValueError]. *)
Theorem from_sgf_errors (N : Z) (a b : ascii) (rest : string) :
  from_sgf N (Some (String a EmptyString)) = Raise IndexError /\
  (~ In a (chars _SGF_COLUMNS) \/ ~ In b (chars _SGF_COLUMNS) ->
   from_sgf N (Some (String a (String b rest))) = Raise ValueError).
Proof.
  split.
  - unfold from_sgf.
    replace (String.eqb (String a "") "tt") with false
      by (simpl; now destruct (Ascii.eqb a "t")).
    rewrite andb_false_r. reflexivity.
  - intros Hnot. unfold from_sgf.
    assert (Htt : String.eqb (String a (String b rest)) "tt" = false).
    { apply String.eqb_neq. intros [= -> -> _].
      destruct Hnot as [H|H]; apply H; vm_compute; tauto. }
    rewrite Htt, andb_false_r.
    change (String.eqb (String a (String b rest)) "") with false.
    cbv beta iota delta [orb].
    rewrite str_getitem_second, bind_Ok, str_getitem_head.
    destruct (str_index _SGF_COLUMNS b) as [row|e] eqn:Hb.
    + rewrite !bind_Ok. destruct Hnot as [Ha|Hb'].
      * unfold str_index. now rewrite (str_index_from_absent _ 0 a Ha).
      * apply str_index_sound in Hb as [_ Gb]. exfalso.
        apply Hb'. eapply get_chars; eauto.
    + apply str_index_raises in Hb as [-> _]. reflexivity.
Qed.

Lemma from_sgf_errors_witness :
  from_sgf 19 (Some "a"%string) = Raise IndexError /\
  from_sgf 19 (Some "a1"%string) = Raise ValueError.
Proof.
  destruct (from_sgf_errors 19 "a" "1" "") as [H1 H2].
  split; [exact H1|]. apply H2. right. vm_compute. intuition discriminate.
Defined.

(** X5.  [from_gtp] reads a column letter in either case followed by a
    decimal numeral [m] as the point [(N - m, k)], [k] being the position
    of the letter in [_GTP_COLUMNS]; it checks no range, so [m <= 0] and
    [m > N] give rows off the board. *)
Theorem from_gtp_letter_number (N k m : Z) (a a' : ascii) :
  0 <= k < 25 ->
  str_getitem _GTP_COLUMNS k = Ok a ->
  upper_char a' = a ->
  from_gtp N (String a' (py_str m)) = Ok (Some (N - m, k)).
Proof.
  intros Hk Ha Hup.
  destruct (str_getitem_inside _GTP_COLUMNS k) as (a0 & Ha0 & Ga);
    [now rewrite gtp_columns_length|].
  assert (a0 = a) by congruence. subst a0.
  pose proof (str_index_getitem _ k a gtp_columns_nodup (proj1 Hk) Ga) as Ia.
  unfold from_gtp. cbn [str_upper]. rewrite Hup, str_upper_py_str.
  assert (Hpass : String.eqb (String a (py_str m)) "PASS" = false).
  { apply String.eqb_neq. intros [= _ H].
    pose proof (py_int_py_str m) as Hint. rewrite H in Hint.
    discriminate Hint. }
  rewrite Hpass, str_getitem_head, bind_Ok, Ia, bind_Ok.
  cbn [str_tail]. now rewrite py_int_py_str, bind_Ok.
Qed.

Lemma from_gtp_letter_number_witness :
  from_gtp 19 (String "t" (py_str 0)) = Ok (Some (19 - 0, 18)).
Proof.
  apply (from_gtp_letter_number 19 18 0 "T" "t"); [lia|reflexivity..].
Defined.

(** X6.  The errors of [from_gtp]: a string whose first character, in
    upper case, is no GTP column raises [ValueError]; that holds for [I]
    and [i], the letter that GTP skips. *)
Theorem from_gtp_rejects_column (N : Z) (c : ascii) (rest : string) :
  ~ In (upper_char c) (chars _GTP_COLUMNS) ->
  from_gtp N (String c rest) = Raise ValueError.
Proof.
  intros Hc. unfold from_gtp. cbn [str_upper].
  assert (Hpass : String.eqb (String (upper_char c) (str_upper rest)) "PASS"
                  = false).
  { apply String.eqb_neq. intros [= H _]. apply Hc. rewrite H.
    vm_compute. tauto. }
  rewrite Hpass, str_getitem_head, bind_Ok. unfold str_index.
  now rewrite (str_index_from_absent _ 0 _ Hc).
Qed.

Lemma from_gtp_rejects_column_witness :
  from_gtp 19 "i5" = Raise ValueError /\ from_gtp 19 "I5" = Raise ValueError.
Proof.
  split.
  - apply (from_gtp_rejects_column 19 "i" "5"). vm_compute.
    intuition discriminate.
  - apply (from_gtp_rejects_column 19 "I" "5"). vm_compute.
    intuition discriminate.
Defined.

(** X7.  [to_gtp] and [to_sgf] index their tables as Python does: a
    negative column or row inside the table counts from its end and is
    encoded like the index plus the table length, without an exception;
    an index outside [-len .. len-1] raises [IndexError]. *)
Theorem encoders_negative_index (N r k : Z) :
  (-25 <= k < 0 -> to_gtp N (Some (r, k)) = to_gtp N (Some (r, k + 25))) /\
  (k < -25 \/ 25 <= k -> to_gtp N (Some (r, k)) = Raise IndexError) /\
  (-52 <= k < 0 -> to_sgf (Some (r, k)) = to_sgf (Some (r, k + 52))) /\
  (-52 <= r < 0 -> to_sgf (Some (r, k)) = to_sgf (Some (r + 52, k))) /\
  (k < -52 \/ 52 <= k -> to_sgf (Some (r, k)) = Raise IndexError).
Proof.
  unfold to_gtp, to_sgf. repeat split.
  - intros Hk. rewrite str_getitem_negative;
      [reflexivity | rewrite gtp_columns_length; lia].
  - intros Hk. rewrite str_getitem_outside;
      [reflexivity | rewrite gtp_columns_length; lia].
  - intros Hk. rewrite (str_getitem_negative _ k);
      [reflexivity | rewrite sgf_columns_length; lia].
  - intros Hr. rewrite (str_getitem_negative _ r);
      [reflexivity | rewrite sgf_columns_length; lia].
  - intros Hk. rewrite (str_getitem_outside _ k);
      [reflexivity | rewrite sgf_columns_length; lia].
Qed.

Lemma encoders_negative_index_witness :
  to_gtp 19 (Some (0, -1)) = to_gtp 19 (Some (0, -1 + 25)) /\
  to_gtp 19 (Some (0, 25)) = Raise IndexError /\
  to_sgf (Some (0, -52)) = to_sgf (Some (0, -52 + 52)).
Proof.
  destruct (encoders_negative_index 19 0 (-1)) as (H1 & _).
  destruct (encoders_negative_index 19 0 25) as (_ & H2 & _).
  destruct (encoders_negative_index 19 0 (-52)) as (_ & _ & H3 & _).
  split; [apply H1; lia|]. split; [apply H2; lia | apply H3; lia].
Defined.

End CoordsMore.

(** ** Episode tracker: what [get] counts *)

Section EpisodeTrackerMore.

Import TrackerSpec RolloutSpec.
Local Open Scope Z_scope.

(** Cutting a rollout into episodes loses no reward. *)
Lemma episodes_from_concat (tr : list timestep) :
  forall cur,
    concat (fst (episodes_from cur tr)) ++ snd (episodes_from cur tr)
    = cur ++ rewards tr.
Proof.
  induction tr as [|ts tr IH]; intros cur; cbn [episodes_from rewards map].
  - simpl. now rewrite app_nil_r.
  - destruct (ts_done ts).
    + specialize (IH []). destruct (episodes_from [] tr) as [eps rest].
      cbn [fst snd concat] in *. rewrite <- !app_assoc, IH. reflexivity.
    + rewrite IH. unfold rewards. now rewrite <- app_assoc.
Qed.

(** The step counters and the visited rooms along a rollout. *)
Lemma rollout_steps (tr : list timestep) :
  forall s : EpisodeTracker.fields,
  EpisodeTracker._current_episode_step s
  = len (EpisodeTracker._current_episode_rewards s) ->
  exists s', EpisodeTracker.rollout (Some s) tr = Ok (Some s') /\
    EpisodeTracker._episode_steps s' =
      EpisodeTracker._episode_steps s
      ++ map len (fst (episodes_from (EpisodeTracker._current_episode_rewards s) tr)) /\
    EpisodeTracker._current_episode_step s' =
      len (snd (episodes_from (EpisodeTracker._current_episode_rewards s) tr)) /\
    EpisodeTracker._episode_visited_rooms s' =
      EpisodeTracker._episode_visited_rooms s ++ rooms_reported tr.
Proof.
  induction tr as [|ts tr IH]; intros s Hcur.
  - exists s. simpl. rewrite !app_nil_r. repeat split; auto.
  - cbn [EpisodeTracker.rollout episodes_from]. unfold EpisodeTracker.step.
    unfold rooms_reported. cbn [omap list_omap]. unfold reported_rooms at 1.
    destruct (ts_done ts); rewrite bind_Ok.
    + match goal with |- context [EpisodeTracker.rollout (Some ?x) tr] =>
        destruct (IH x) as (s' & Hrun & Hst & Hc & Hv) end; [reflexivity|].
      cbn [EpisodeTracker._episode_steps EpisodeTracker._current_episode_rewards
           EpisodeTracker._current_episode_step
           EpisodeTracker._episode_visited_rooms] in Hst, Hc, Hv.
      exists s'. split; [exact Hrun|].
      destruct (episodes_from [] tr) as [eps rest].
      cbn [fst snd map] in *. rewrite Hst, Hc, Hv, <- !app_assoc.
      split; [|split; [reflexivity|]].
      * f_equal. cbn [app]. f_equal. unfold len in *.
        rewrite length_app. cbn [length]. lia.
      * unfold EpisodeTracker.append_visited_rooms.
        destruct (ts_info ts) as [|d|]; cbn [_is_dict info_lookup];
          try reflexivity.
        destruct (d !! "episode_visited_rooms"%string);
          [now rewrite <- app_assoc | reflexivity].
    + match goal with |- context [EpisodeTracker.rollout (Some ?x) tr] =>
        destruct (IH x) as (s' & Hrun & Hst & Hc & Hv) end.
      { cbn [EpisodeTracker._current_episode_step
             EpisodeTracker._current_episode_rewards].
        unfold len in *. rewrite length_app. cbn [length]. lia. }
      cbn [EpisodeTracker._episode_steps EpisodeTracker._current_episode_rewards
           EpisodeTracker._current_episode_step
           EpisodeTracker._episode_visited_rooms] in Hst, Hc, Hv.
      exists s'. split; [exact Hrun|]. now rewrite Hst, Hc, Hv.
Qed.

(** X8.  After [reset] and a rollout, [get] reports as [num_episodes] the
    number of episodes that the rollout completed, as
    [current_episode_step] the number of steps taken after the last
    completed episode, and as [num_steps_since_reset] the length of the
    rollout; the recorded episode lengths are those of the completed
    episodes. *)
Theorem get_counts (self : EpisodeTracker.t) (tr : list timestep) :
  exists s st,
    EpisodeTracker.rollout (EpisodeTracker.reset self) tr = Ok (Some s) /\
    EpisodeTracker.get (Some s) = Ok st /\
    EpisodeTracker.num_episodes st = len (completed_episodes tr) /\
    EpisodeTracker.current_episode_step st = len (episode_in_progress tr) /\
    EpisodeTracker.num_steps_since_reset st = len tr /\
    EpisodeTracker._episode_steps s = map len (completed_episodes tr).
Proof.
  unfold EpisodeTracker.reset.
  match goal with |- context [EpisodeTracker.rollout (Some ?x) tr] =>
    destruct (rollout_episodes tr x) as (s & Hrun & Hret & _ & Hnum);
    destruct (rollout_steps tr x eq_refl) as (s1 & Hrun1 & Hst & Hc & _) end.
  rewrite Hrun in Hrun1. injection Hrun1 as <-.
  cbn [EpisodeTracker._episode_returns EpisodeTracker._current_episode_rewards
       EpisodeTracker._num_steps_since_reset EpisodeTracker._episode_steps
       app] in Hret, Hnum, Hst, Hc.
  exists s. unfold EpisodeTracker.get.
  destruct (0 <? Z.of_nat (length (EpisodeTracker._episode_returns s)));
    (eexists; split; [exact Hrun|]; split; [reflexivity|]);
    cbn [EpisodeTracker.num_episodes EpisodeTracker.current_episode_step
         EpisodeTracker.num_steps_since_reset];
    rewrite Hret, Hc, Hnum, Hst, length_map;
    repeat split; unfold len; lia.
Qed.

(** X9.  After [reset] and a rollout, ['mean_episode_visited_rooms'] is 0
    while no episode is completed; afterwards it is numpy's mean of the
    values that the episode ends reported in their [info], in order, not
    a mean over all completed episodes, and [nan] when none of them
    reported one. *)
Theorem mean_visited_rooms_spec (self : EpisodeTracker.t) (tr : list timestep) :
  exists s st,
    EpisodeTracker.rollout (EpisodeTracker.reset self) tr = Ok (Some s) /\
    EpisodeTracker.get (Some s) = Ok st /\
    EpisodeTracker._episode_visited_rooms s = rooms_reported tr /\
    (completed_episodes tr = [] ->
     EpisodeTracker.mean_episode_visited_rooms st = Num 0) /\
    (completed_episodes tr <> [] ->
     EpisodeTracker.mean_episode_visited_rooms st
     = np_mean (rooms_reported tr)) /\
    (completed_episodes tr <> [] -> rooms_reported tr = [] ->
     EpisodeTracker.mean_episode_visited_rooms st = NaN).
Proof.
  unfold EpisodeTracker.reset.
  match goal with |- context [EpisodeTracker.rollout (Some ?x) tr] =>
    destruct (rollout_episodes tr x) as (s & Hrun & Hret & _ & _);
    destruct (rollout_steps tr x eq_refl) as (s1 & Hrun1 & _ & _ & Hv) end.
  rewrite Hrun in Hrun1. injection Hrun1 as <-.
  cbn [EpisodeTracker._episode_returns EpisodeTracker._current_episode_rewards
       EpisodeTracker._episode_visited_rooms app] in Hret, Hv.
  fold (completed_episodes tr) in Hret.
  exists s. unfold EpisodeTracker.get. rewrite Hret, Hv.
  destruct (completed_episodes tr) as [|e eps].
  - cbn [map length]. change (0 <? Z.of_nat 0) with false. cbv iota.
    eexists; split; [exact Hrun|]. split; [reflexivity|].
    cbn [EpisodeTracker.mean_episode_visited_rooms].
    split; [reflexivity|]. split; [reflexivity|].
    split; intros; congruence.
  - destruct (Z.ltb_spec 0 (Z.of_nat (length (map py_sum (e :: eps)))))
      as [_|Hlt]; [|cbn [map length] in Hlt; lia].
    eexists; split; [exact Hrun|]. split; [reflexivity|].
    cbn [EpisodeTracker.mean_episode_visited_rooms].
    split; [reflexivity|]. split; [intros; congruence|].
    split; [reflexivity|]. intros _ Hnil. now rewrite Hnil.
Qed.

Lemma mean_visited_rooms_spec_witness :
  exists s st,
    EpisodeTracker.rollout (EpisodeTracker.reset EpisodeTracker.__init__)
      [Timestep 1%Q true (InfoDict {[ "episode_visited_rooms"%string := 3%Q ]});
       Timestep 1%Q true InfoNone] = Ok (Some s) /\
    EpisodeTracker.get (Some s) = Ok st /\
    EpisodeTracker.mean_episode_visited_rooms st
    = np_mean (rooms_reported
                 [Timestep 1%Q true
                    (InfoDict {[ "episode_visited_rooms"%string := 3%Q ]});
                  Timestep 1%Q true InfoNone]).
Proof.
  destruct (mean_visited_rooms_spec EpisodeTracker.__init__
    [Timestep 1%Q true (InfoDict {[ "episode_visited_rooms"%string := 3%Q ]});
     Timestep 1%Q true InfoNone])
    as (s & st & Hrun & Hget & _ & _ & Hmean & _).
  exists s, st. split; [exact Hrun|]. split; [exact Hget|].
  apply Hmean. vm_compute. discriminate.
Defined.

(** X10.  The tracker loses no reward and moves none: after [reset] and a
    rollout, every recorded return is the sum of the rewards of one
    completed episode, in order, and the rewards of the completed
    episodes followed by the rewards in progress are the rewards of the
    rollout, each once and in the order of the steps. *)
Theorem rewards_conserved (self : EpisodeTracker.t) (tr : list timestep) :
  exists s,
    EpisodeTracker.rollout (EpisodeTracker.reset self) tr = Ok (Some s) /\
    EpisodeTracker._episode_returns s
    = map py_sum (completed_episodes tr) /\
    concat (completed_episodes tr)
      ++ EpisodeTracker._current_episode_rewards s
    = rewards tr.
Proof.
  unfold EpisodeTracker.reset.
  match goal with |- context [EpisodeTracker.rollout (Some ?x) tr] =>
    destruct (rollout_episodes tr x) as (s & Hrun & Hret & Hrew & _) end.
  cbn [EpisodeTracker._episode_returns EpisodeTracker._current_episode_rewards
       app] in Hret, Hrew.
  exists s. split; [exact Hrun|]. split; [exact Hret|].
  rewrite Hrew. apply (episodes_from_concat tr []).
Qed.

(** X11.  Every completed episode has at least one step: on a tracker
    that [reset] and [step] calls produced, all entries of
    [_episode_steps] are at least 1. *)
Theorem episode_steps_positive (self : EpisodeTracker.t) :
  EpisodeTracker.reachable self ->
  exists s, self = Some s /\
    Forall (fun n => 1 <= n) (EpisodeTracker._episode_steps s).
Proof.
  intros Hreach.
  assert (H : exists s, self = Some s /\
                0 <= EpisodeTracker._current_episode_step s /\
                Forall (fun n => 1 <= n) (EpisodeTracker._episode_steps s)).
  { induction Hreach as [self|self self' reward done info _ IH Hstep].
    - eexists; split; [reflexivity|]. simpl. split; [lia|constructor].
    - destruct IH as (s & -> & Hpos & Hall).
      unfold EpisodeTracker.step in Hstep.
      destruct done; injection Hstep as <-;
        (eexists; split; [reflexivity|]); simpl; (split; [lia|]); auto.
      apply Forall_app. split; [exact Hall|]. repeat constructor. lia. }
  destruct H as (s & -> & _ & Hall). now exists s.
Qed.

Lemma episode_steps_positive_witness :
  exists s,
    EpisodeTracker.run (EpisodeTracker.reset EpisodeTracker.__init__)
      [EpisodeTracker.CallStep (Timestep 1%Q true InfoNone);
       EpisodeTracker.CallStep (Timestep 2%Q false InfoNone)] = Some s /\
    Forall (fun n => 1 <= n) (EpisodeTracker._episode_steps s).
Proof.
  apply (episode_steps_positive
    (EpisodeTracker.run (EpisodeTracker.reset EpisodeTracker.__init__)
      [EpisodeTracker.CallStep (Timestep 1%Q true InfoNone);
       EpisodeTracker.CallStep (Timestep 2%Q false InfoNone)])).
  apply episode_run_reachable, EpisodeTracker.reach_reset.
Defined.

(** X12.  A tracker must be reset before use: on a tracker as its
    constructor leaves it, [step] raises ([AttributeError] for
    [EpisodeTracker], [TypeError] for [StepRateTracker]) and [get] raises
    [TypeError], and whatever calls of [step] and [get] are made, the
    tracker stays as constructed. *)
Theorem trackers_need_reset :
  (forall reward done info,
     EpisodeTracker.step EpisodeTracker.__init__ reward done info
     = Raise AttributeError) /\
  EpisodeTracker.get EpisodeTracker.__init__ = Raise TypeError /\
  (forall cs, EpisodeTracker.run EpisodeTracker.__init__ cs
              = EpisodeTracker.__init__) /\
  (forall reward done info,
     StepRateTracker.step StepRateTracker.__init__ reward done info
     = Raise TypeError) /\
  (forall now, StepRateTracker.get StepRateTracker.__init__ now
               = Raise TypeError) /\
  (forall cs, StepRateTracker.run StepRateTracker.__init__ cs
              = StepRateTracker.__init__).
Proof.
  repeat split.
  - intros cs. induction cs as [|[ts|] cs IH]; [reflexivity|exact IH..].
  - intros cs. induction cs as [|[ts|now] cs IH]; [reflexivity|exact IH..].
Qed.

End EpisodeTrackerMore.

(** ** Tensorboard trackers *)

Section TensorboardFacts.

Import RolloutSpec.
Local Open Scope Z_scope.

Lemma py_last_snoc {A : Type} (l : list A) (x : A) : py_last (l ++ [x]) = Ok x.
Proof. unfold py_last. now rewrite last_snoc. Qed.

(** X13.  The end of an episode on a [TensorboardEpisodeTracker] that was
    reset.  The step and the episode are counted and the base tracker is
    updated in every case.  When no visited-rooms value has been recorded
    since [reset], this step's [info] included, the call raises
    [IndexError] and adds no scalar.  Otherwise it adds four scalars at
    the global step [_total_steps]: the episode count, the return and the
    length of the episode that ended, and the last recorded visited-rooms
    value, which is an earlier episode's when this [info] reports none. *)
Theorem tb_episode_end
    (self : TensorboardEpisodeTracker.t) (writer : SummaryWriter.t)
    (reward : Q) (info : pyinfo) (s : EpisodeTracker.fields) :
  TensorboardEpisodeTracker.base self = Some s ->
  exists self' writer' r,
    TensorboardEpisodeTracker.step self writer reward true info
    = (self', writer', r) /\
    EpisodeTracker.step (Some s) reward true info
    = Ok (TensorboardEpisodeTracker.base self') /\
    TensorboardEpisodeTracker._total_steps self'
    = TensorboardEpisodeTracker._total_steps self + 1 /\
    TensorboardEpisodeTracker._total_episodes self'
    = TensorboardEpisodeTracker._total_episodes self + 1 /\
    (EpisodeTracker.append_visited_rooms
       (EpisodeTracker._episode_visited_rooms s) info = [] ->
     r = Raise IndexError /\ writer' = writer) /\
    (forall v,
       last (EpisodeTracker.append_visited_rooms
               (EpisodeTracker._episode_visited_rooms s) info) = Some v ->
       r = Ok () /\
       writer' = writer ++
         [SummaryWriter.Scalar "performance(env_steps)/num_episodes"
            (float_of_int (TensorboardEpisodeTracker._total_episodes self + 1))
            (TensorboardEpisodeTracker._total_steps self + 1);
          SummaryWriter.Scalar "performance(env_steps)/episode_return"
            (Num (py_sum (EpisodeTracker._current_episode_rewards s ++ [reward])))
            (TensorboardEpisodeTracker._total_steps self + 1);
          SummaryWriter.Scalar "performance(env_steps)/episode_steps"
            (float_of_int (EpisodeTracker._current_episode_step s + 1))
            (TensorboardEpisodeTracker._total_steps self + 1);
          SummaryWriter.Scalar "performance(env_steps)/episode_visited_rooms"
            (Num v) (TensorboardEpisodeTracker._total_steps self + 1)]).
Proof.
  intros Hbase. unfold TensorboardEpisodeTracker.step. rewrite Hbase.
  unfold EpisodeTracker.step, TensorboardEpisodeTracker.episode_summary.
  cbn [EpisodeTracker._episode_returns EpisodeTracker._episode_steps
       EpisodeTracker._episode_visited_rooms].
  rewrite !py_last_snoc, !bind_Ok. unfold py_last.
  destruct (last (EpisodeTracker.append_visited_rooms
                    (EpisodeTracker._episode_visited_rooms s) info))
    as [v|] eqn:Hlast.
  - rewrite bind_Ok. do 3 eexists. split; [reflexivity|].
    cbn [TensorboardEpisodeTracker.base TensorboardEpisodeTracker._total_steps
         TensorboardEpisodeTracker._total_episodes].
    split; [reflexivity|]. split; [reflexivity|]. split; [reflexivity|].
    split.
    + intros Hnil. rewrite Hnil in Hlast. discriminate Hlast.
    + intros v' [= <-]. split; [reflexivity|].
      unfold SummaryWriter.add_scalar. now rewrite <- !app_assoc.
  - do 3 eexists. split; [reflexivity|].
    cbn [TensorboardEpisodeTracker.base TensorboardEpisodeTracker._total_steps
         TensorboardEpisodeTracker._total_episodes].
    split; [reflexivity|]. split; [reflexivity|]. split; [reflexivity|].
    split.
    + intros _. split; reflexivity.
    + intros v' Hv. discriminate Hv.
Qed.

Lemma tb_episode_end_witness :
  exists self' writer' r,
    TensorboardEpisodeTracker.step
      (TensorboardEpisodeTracker.reset TensorboardEpisodeTracker.__init__)
      [] 1%Q true InfoNone = (self', writer', r) /\
    r = Raise IndexError /\ writer' = [].
Proof.
  destruct (tb_episode_end
              (TensorboardEpisodeTracker.reset TensorboardEpisodeTracker.__init__)
              [] 1%Q InfoNone _ eq_refl)
    as (self' & writer' & r & Hstep & _ & _ & _ & Hnil & _).
  exists self', writer', r. split; [exact Hstep|]. apply Hnil. reflexivity.
Defined.

(** On a live base tracker every call leaves the base live and counts. *)
Lemma tb_exec_counts (self self' : TensorboardEpisodeTracker.t)
    (writer writer' : SummaryWriter.t) (c : TensorboardEpisodeTracker.call)
    (r : result unit) :
  TensorboardEpisodeTracker.base self <> None ->
  TensorboardEpisodeTracker.exec self writer c = (self', writer', r) ->
  TensorboardEpisodeTracker.base self' <> None /\
  TensorboardEpisodeTracker._total_steps self'
  = TensorboardEpisodeTracker._total_steps self + tb_steps_called [c] /\
  TensorboardEpisodeTracker._total_episodes self'
  = TensorboardEpisodeTracker._total_episodes self + tb_episodes_ended [c].
Proof.
  intros Hlive. destruct c as [ts|]; cbn [TensorboardEpisodeTracker.exec].
  - unfold TensorboardEpisodeTracker.step.
    destruct (TensorboardEpisodeTracker.base self) as [s|] eqn:Hb;
      [|contradiction].
    unfold EpisodeTracker.step. cbn [tb_steps_called tb_episodes_ended].
    destruct (ts_done ts).
    + destruct (TensorboardEpisodeTracker.episode_summary _) as [[[? ?] ?]|?];
        intros [= <- <- <-]; simpl; repeat split; try discriminate; lia.
    + intros [= <- <- <-]. simpl. repeat split; try discriminate; lia.
  - intros [= <- <- <-]. simpl. repeat split; try discriminate; lia.
Qed.

(** X14.  [_total_steps] and [_total_episodes] of a
    [TensorboardEpisodeTracker] are not reset: over any sequence of [step]
    and [reset] calls on a tracker that was reset once, they grow by the
    number of [step] calls and by the number of steps with [done], also
    for the steps that raised [IndexError]. *)
Theorem tb_totals_not_reset (cs : list TensorboardEpisodeTracker.call) :
  forall (self self' : TensorboardEpisodeTracker.t)
         (writer writer' : SummaryWriter.t) (outs : list (result unit)),
  TensorboardEpisodeTracker.base self <> None ->
  TensorboardEpisodeTracker.run self writer cs = (self', writer', outs) ->
  TensorboardEpisodeTracker._total_steps self'
  = TensorboardEpisodeTracker._total_steps self + tb_steps_called cs /\
  TensorboardEpisodeTracker._total_episodes self'
  = TensorboardEpisodeTracker._total_episodes self + tb_episodes_ended cs.
Proof.
  induction cs as [|c cs IH]; intros self self' writer writer' outs Hlive;
    cbn [TensorboardEpisodeTracker.run].
  - intros [= <- <- <-]. simpl. lia.
  - destruct (TensorboardEpisodeTracker.exec self writer c)
      as [[self1 w1] r] eqn:Hexec.
    destruct (TensorboardEpisodeTracker.run self1 w1 cs)
      as [[self2 w2] rs] eqn:Hrun.
    intros [= <- <- <-].
    destruct (tb_exec_counts _ _ _ _ _ _ Hlive Hexec) as (Hlive1 & Hs & He).
    destruct (IH _ _ _ _ _ Hlive1 Hrun) as [Hs2 He2].
    rewrite Hs2, He2, Hs, He. clear.
    destruct c as [ts|]; cbn [tb_steps_called tb_episodes_ended]; lia.
Qed.

Lemma tb_totals_not_reset_witness :
  TensorboardEpisodeTracker._total_steps
    (TensorboardEpisodeTracker.run
       (TensorboardEpisodeTracker.reset TensorboardEpisodeTracker.__init__) []
       [TensorboardEpisodeTracker.CallStep (Timestep 1%Q true InfoNone);
        TensorboardEpisodeTracker.CallReset;
        TensorboardEpisodeTracker.CallStep (Timestep 1%Q false InfoNone)]).1.1
  = 0 + 2 /\
  TensorboardEpisodeTracker._total_episodes
    (TensorboardEpisodeTracker.run
       (TensorboardEpisodeTracker.reset TensorboardEpisodeTracker.__init__) []
       [TensorboardEpisodeTracker.CallStep (Timestep 1%Q true InfoNone);
        TensorboardEpisodeTracker.CallReset;
        TensorboardEpisodeTracker.CallStep (Timestep 1%Q false InfoNone)]).1.1
  = 0 + 1.
Proof.
  set (cs := [TensorboardEpisodeTracker.CallStep (Timestep 1%Q true InfoNone);
              TensorboardEpisodeTracker.CallReset;
              TensorboardEpisodeTracker.CallStep (Timestep 1%Q false InfoNone)]).
  set (self := TensorboardEpisodeTracker.reset TensorboardEpisodeTracker.__init__).
  destruct (TensorboardEpisodeTracker.run self [] cs) as [[self' w'] outs] eqn:E.
  exact (tb_totals_not_reset cs self self' [] w' outs
           ltac:(discriminate) E).
Defined.

(** X15.  A step of a [TensorboardStepRateTracker] whose base was reset
    and counts no negative number of steps.  The step is counted in every
    case.  Without [done] the clock is not read and nothing is added.
    With [done], [get] divides by the time since [reset]: a duration of 0
    raises [ZeroDivisionError] and adds nothing, any other duration adds
    the scalar [step_rate = (steps + 1) / duration] at the global step
    [_total_steps]. *)
Theorem tb_step_rate_step
    (self : TensorboardStepRateTracker.t) (writer : SummaryWriter.t)
    (now reward : Q) (info : pyinfo) (s : StepRateTracker.fields) :
  TensorboardStepRateTracker.base self = Some s ->
  0 <= StepRateTracker._num_steps_since_reset s ->
  let self' :=
    {| TensorboardStepRateTracker.base :=
         Some {| StepRateTracker._num_steps_since_reset :=
                   StepRateTracker._num_steps_since_reset s + 1;
                 StepRateTracker._start := StepRateTracker._start s |};
       TensorboardStepRateTracker._total_steps :=
         TensorboardStepRateTracker._total_steps self + 1;
       TensorboardStepRateTracker._total_episodes :=
         TensorboardStepRateTracker._total_episodes self |} in
  TensorboardStepRateTracker.step self writer now reward false info
  = (self', writer, Ok ()) /\
  ((now - StepRateTracker._start s == 0)%Q ->
   TensorboardStepRateTracker.step self writer now reward true info
   = (self', writer, Raise ZeroDivisionError)) /\
  (~ (now - StepRateTracker._start s == 0)%Q ->
   TensorboardStepRateTracker.step self writer now reward true info
   = (self',
      writer ++
        [SummaryWriter.Scalar "performance(env_steps)/step_rate"
           (Num (inject_Z (StepRateTracker._num_steps_since_reset s + 1)
                 / (now - StepRateTracker._start s))%Q)
           (TensorboardStepRateTracker._total_steps self + 1)],
      Ok ())).
Proof.
  intros Hbase Hpos self'. unfold TensorboardStepRateTracker.step.
  rewrite Hbase. unfold StepRateTracker.step, StepRateTracker.get,
    StepRateTracker.truediv.
  cbn [StepRateTracker._num_steps_since_reset StepRateTracker._start].
  destruct (Z.ltb_spec 0 (StepRateTracker._num_steps_since_reset s + 1));
    [|lia].
  split; [reflexivity|]. split.
  - intros Hd. apply Qeq_bool_iff in Hd. rewrite Hd. reflexivity.
  - intros Hd.
    destruct (Qeq_bool (now - StepRateTracker._start s) 0) eqn:E.
    + apply Qeq_bool_iff in E. contradiction.
    + reflexivity.
Qed.

Lemma tb_step_rate_step_witness :
  TensorboardStepRateTracker.step
    (TensorboardStepRateTracker.reset TensorboardStepRateTracker.__init__ 5%Q)
    [] 5%Q 1%Q true InfoNone
  = ({| TensorboardStepRateTracker.base :=
          Some {| StepRateTracker._num_steps_since_reset := 0 + 1;
                  StepRateTracker._start := 5%Q |};
        TensorboardStepRateTracker._total_steps := 0 + 1;
        TensorboardStepRateTracker._total_episodes := None |},
     [], Raise ZeroDivisionError).
Proof.
  destruct (tb_step_rate_step
              (TensorboardStepRateTracker.reset
                 TensorboardStepRateTracker.__init__ 5%Q)
              [] 5%Q 1%Q InfoNone _ eq_refl) as (_ & H & _).
  - simpl. lia.
  - apply H. reflexivity.
Defined.

End TensorboardFacts.

(** ** Lists of trackers *)

Section TrackerListFacts.

Import Trackers.
Local Open Scope Z_scope.

(** The clock. *)
Variable default_timer : nat -> Q.

(** X16.  With the four trackers of a [log_dir], in the order in which
    [make_default_trackers] lists them, the tensorboard trackers show in
    no statistic: when [generate_statistics] returns, it returns the
    dictionary that the first two trackers give alone, since
    [ChainMap] takes every key from the first dictionary that has it. *)
Theorem generate_statistics_shadows
    (e : EpisodeTracker.t) (r : StepRateTracker.t)
    (te : TensorboardEpisodeTracker.t) (tr : TensorboardStepRateTracker.t)
    (ticks : nat) (m : gmap string pyvalue) :
  generate_statistics default_timer
    [Episode e; StepRate r; TbEpisode te; TbStepRate tr] ticks = Ok m ->
  generate_statistics default_timer [Episode e; StepRate r] ticks = Ok m.
Proof.
  unfold generate_statistics. cbn [statistics_dicts get].
  unfold TensorboardEpisodeTracker.get, TensorboardStepRateTracker.get.
  destruct (EpisodeTracker.get e) as [s1|?]; [|discriminate].
  destruct (StepRateTracker.get r _) as [s2|?]; [|discriminate].
  destruct (EpisodeTracker.get _) as [s3|?]; [|discriminate].
  destruct (StepRateTracker.get _ _) as [s4|?]; [|discriminate].
  cbn [fmap result_fmap mbind result_bind]. intros [= <-].
  (* the keys are literals: both chains compute to the same dictionary *)
  reflexivity.
Qed.

(** X17.  Trackers just reset report the conventions of an empty
    rollout and raise nothing: whatever the two default trackers held
    before, after [reset_trackers] the merged statistics have
    [mean_episode_return] and [step_rate] at [nan], every counter at 0,
    [mean_episode_visited_rooms] at 0 and the duration between the two
    clock readings, also when the clock did not advance. *)
Theorem fresh_default_statistics
    (e : EpisodeTracker.t) (r : StepRateTracker.t) (ticks : nat) :
  exists m,
    generate_statistics default_timer
      (reset_trackers default_timer [Episode e; StepRate r] ticks).1
      (reset_trackers default_timer [Episode e; StepRate r] ticks).2 = Ok m /\
    m !! "mean_episode_return"%string = Some (VFloat NaN) /\
    m !! "mean_episode_visited_rooms"%string = Some (VFloat (Num 0)) /\
    m !! "num_episodes"%string = Some (VInt 0) /\
    m !! "current_episode_step"%string = Some (VInt 0) /\
    m !! "num_steps_since_reset"%string = Some (VInt 0) /\
    m !! "step_rate"%string = Some (VFloat NaN) /\
    m !! "num_steps"%string = Some (VInt 0) /\
    m !! "duration"%string
    = Some (VFloat (Num (default_timer (S ticks) - default_timer ticks))) /\
    size m = 8%nat.
Proof.
  eexists. split; [reflexivity|]. repeat split.
Qed.

Lemma get_set_steps (tr : tracker) (num_steps num_episodes : Z) (ticks : nat) :
  get default_timer (set_steps tr num_steps num_episodes) ticks
  = get default_timer tr ticks.
Proof. now destruct tr. Qed.

(** X18.  [set_tracker_steps] changes no statistic: it keeps the length
    of the list, leaves the trackers that do not write to tensorboard as
    they are, and [generate_statistics] returns after it what it returned
    before. *)
Theorem set_tracker_steps_keeps_statistics
    (trackers : list tracker) (num_steps num_episodes : Z) (ticks : nat) :
  length (set_tracker_steps trackers num_steps num_episodes) = length trackers /\
  (forall e r,
     set_tracker_steps [Episode e; StepRate r] num_steps num_episodes
     = [Episode e; StepRate r]) /\
  generate_statistics default_timer
    (set_tracker_steps trackers num_steps num_episodes) ticks
  = generate_statistics default_timer trackers ticks.
Proof.
  split; [apply length_map|]. split; [reflexivity|].
  unfold generate_statistics. f_equal. revert ticks.
  induction trackers as [|tr trackers IH]; intros ticks; [reflexivity|].
  cbn [set_tracker_steps map statistics_dicts]. rewrite get_set_steps.
  destruct (get default_timer tr ticks) as [d ticks1].
  fold (set_tracker_steps trackers num_steps num_episodes).
  now rewrite IH.
Qed.

(** After its reset, [get] of any tracker returns. *)
Lemma get_after_reset (tr : tracker) (ticks ticks' : nat) :
  exists d, (get default_timer (reset default_timer tr ticks).1 ticks').1 = Ok d.
Proof. destruct tr; eexists; reflexivity. Qed.

(** X19.  [reset_trackers] makes every list of trackers usable: whatever
    the trackers held before, also trackers never reset, the list keeps
    its length and [generate_statistics] returns a dictionary for it, at
    any later clock reading. *)
Theorem reset_trackers_then_statistics
    (trackers : list tracker) (ticks ticks' : nat) :
  length (reset_trackers default_timer trackers ticks).1 = length trackers /\
  exists m,
    generate_statistics default_timer
      (reset_trackers default_timer trackers ticks).1 ticks' = Ok m.
Proof.
  split.
  - revert ticks. induction trackers as [|tr trackers IH]; intros ticks;
      [reflexivity|].
    cbn [reset_trackers]. destruct (reset default_timer tr ticks) as [tr' t1].
    specialize (IH t1).
    destruct (reset_trackers default_timer trackers t1) as [rest t2].
    simpl in *. now f_equal.
  - unfold generate_statistics.
    assert (H : exists ds, statistics_dicts default_timer
                  (reset_trackers default_timer trackers ticks).1 ticks' = Ok ds).
    { revert ticks ticks'.
      induction trackers as [|tr trackers IH]; intros ticks ticks';
        [now exists []|].
      cbn [reset_trackers].
      destruct (get_after_reset tr ticks ticks') as [d Hd].
      destruct (reset default_timer tr ticks) as [tr' t1].
      specialize (IH t1).
      destruct (reset_trackers default_timer trackers t1) as [rest t2].
      cbn [fst snd statistics_dicts] in *.
      destruct (get default_timer tr' ticks') as [rd t3].
      cbn [fst] in Hd. subst rd. rewrite bind_Ok.
      destruct (IH t3) as [ds Hds]. rewrite Hds, bind_Ok. eauto. }
    destruct H as [ds Hds]. rewrite Hds. eexists. reflexivity.
Qed.

End TrackerListFacts.

Lemma generate_statistics_shadows_witness :
  exists m,
    Trackers.generate_statistics (fun k => inject_Z (Z.of_nat k))
      (Trackers.reset_trackers (fun k => inject_Z (Z.of_nat k))
         (Trackers.default_trackers ++ Trackers.tensorboard_trackers) 0).1 2
    = Ok m /\
    Trackers.generate_statistics (fun k => inject_Z (Z.of_nat k))
      (Trackers.reset_trackers (fun k => inject_Z (Z.of_nat k))
         Trackers.default_trackers 0).1 2
    = Ok m.
Proof.
  destruct (Trackers.generate_statistics (fun k => inject_Z (Z.of_nat k))
      (Trackers.reset_trackers (fun k => inject_Z (Z.of_nat k))
         (Trackers.default_trackers ++ Trackers.tensorboard_trackers) 0).1 2)
    as [m|e] eqn:E; [|discriminate E].
  exists m. split; [reflexivity|].
  exact (generate_statistics_shadows _ _ _ _ _ _ _ E).
Defined.

(** ** CSV writer: the consistency check, restarts and what is left alone *)

Section CsvWriterMore.

Import CsvWriter CsvSpec.

Lemma same_except_refl (f : string) (w : world) : same_except f w w.
Proof. now repeat split. Qed.

Lemma same_except_trans (f : string) (w1 w2 w3 : world) :
  same_except f w1 w2 -> same_except f w2 w3 -> same_except f w1 w3.
Proof.
  intros (H1 & H2 & H3) (H1' & H2' & H3'). split; [congruence|].
  split; [congruence|]. intros g Hg. now rewrite H3', H3.
Qed.

Lemma open_append_frame (w w1 : world) (f : string) :
  Os.open_append w f = Ok w1 -> same_except f w w1.
Proof.
  unfold Os.open_append.
  repeat match goal with
         | |- context [if ?b then _ else _] => destruct b
         end; try discriminate.
  intros [= <-]. split; [reflexivity|]. split; [reflexivity|].
  intros g Hg. cbn [files]. now rewrite lookup_insert_ne.
Qed.

Lemma append_line_frame (w : world) (f : string) (l : csv_line) :
  same_except f w (Os.append_line w f l).
Proof.
  split; [reflexivity|]. split; [reflexivity|].
  intros g Hg. unfold Os.append_line. cbn [files].
  now rewrite lookup_insert_ne.
Qed.

(** Whether [open] succeeds depends on the path and the directories. *)
Lemma open_append_dirs (w w' w1 : world) (f : string) :
  dirs w' = dirs w ->
  Os.open_append w f = Ok w1 ->
  exists w1', Os.open_append w' f = Ok w1'.
Proof.
  intros Hd. unfold Os.open_append, Os.is_dir. rewrite Hd.
  repeat match goal with
         | |- context [if ?b then _ else _] => destruct b
         end; try discriminate; eauto.
Qed.

Lemma _dict_to_list_ok (fieldnames : list string) (d : record) :
  Forall (fun k => k ∈ fieldnames) (keys d) ->
  _dict_to_list fieldnames d = Ok (row_of fieldnames d).
Proof.
  intros H. unfold _dict_to_list.
  assert (Hb : forallb (fun k => bool_decide (k ∈ fieldnames)) (keys d) = true).
  { apply forallb_forall. intros k Hk. apply bool_decide_eq_true.
    rewrite Forall_forall in H. apply H. now apply list_elem_of_In. }
  now rewrite Hb.
Qed.

Lemma _dict_to_list_extra (fieldnames : list string) (d : record) :
  ~ Forall (fun k => k ∈ fieldnames) (keys d) ->
  _dict_to_list fieldnames d = Raise ValueError.
Proof.
  intros H. unfold _dict_to_list.
  destruct (forallb _ (keys d)) eqn:Hb; [|reflexivity].
  exfalso. apply H. apply Forall_forall. intros k Hk.
  rewrite forallb_forall in Hb. apply list_elem_of_In in Hk.
  specialize (Hb k Hk). now apply bool_decide_eq_true in Hb.
Qed.

(** A [write] whose file opens and whose record passes the check. *)
Lemma write_returns (self : t) (w w1 : world) (values : nat) :
  Os.open_append w (_fname self) = Ok w1 ->
  let fref := match _fieldnames self with Some f => f | None => values end in
  let fieldnames := keys (deref w fref) in
  Forall (fun k => k ∈ fieldnames) (keys (deref w values)) ->
  exists w',
    write self w values
    = ({| _fname := _fname self; _header_written := true;
          _fieldnames := Some fref |}, w', Ok ()) /\
    same_except (_fname self) w w' /\
    file_content w' (_fname self)
    = file_content w (_fname self)
      ++ (if _header_written self then [] else [HeaderLine fieldnames])
      ++ [RowLine (row_of fieldnames (deref w values))].
Proof.
  intros Hopen fref fieldnames Hall.
  destruct (file_content_open _ _ _ Hopen) as [Hfc _].
  pose proof (open_append_frame _ _ _ Hopen) as Hframe.
  unfold write. rewrite Hopen. fold fref. fold fieldnames.
  rewrite (_dict_to_list_ok _ _ Hall). eexists. split; [reflexivity|].
  destruct (_header_written self); cbn [negb];
    rewrite !file_content_append, Hfc, <- ?app_assoc;
    (split; [|reflexivity]);
    eauto using same_except_trans, append_line_frame.
Qed.

(** In a [dict] the values, read key by key, are its values in order. *)
Lemma row_of_self (d : record) :
  List.NoDup (keys d) -> row_of (keys d) d = map snd d.
Proof.
  induction d as [|[k v] d IH]; intros Hnd; [reflexivity|].
  apply List.NoDup_cons_iff in Hnd as [Hk Hnd].
  unfold row_of in *. cbn [keys map fst snd get_or_empty].
  rewrite String.eqb_refl. f_equal. rewrite <- (IH Hnd).
  apply map_ext_in. intros k' Hk'. cbn [get_or_empty].
  destruct (String.eqb_spec k k') as [->|_]; [contradiction|reflexivity].
Qed.

(** X20.  The consistency check of [write], on a writer that has its
    field names and whose file opens.  The record is checked against the
    keys that the first record object has now.  When all its keys are
    among them, the call returns and appends one data row with one cell
    per field name, after the header if that is still to be written.
    When it has another key, the call raises [ValueError] and appends no
    data row; a header still to be written is written all the same. *)
Theorem write_checks_record
    (self : t) (w w1 : world) (values f : nat) :
  _fieldnames self = Some f ->
  Os.open_append w (_fname self) = Ok w1 ->
  let fieldnames := keys (deref w f) in
  let header :=
    if _header_written self then [] else [HeaderLine fieldnames] in
  let self' := {| _fname := _fname self; _header_written := true;
                  _fieldnames := Some f |} in
  (Forall (fun k => k ∈ fieldnames) (keys (deref w values)) ->
   exists w',
     write self w values = (self', w', Ok ()) /\
     file_content w' (_fname self)
     = file_content w (_fname self) ++ header
       ++ [RowLine (row_of fieldnames (deref w values))] /\
     length (row_of fieldnames (deref w values)) = length fieldnames) /\
  (~ Forall (fun k => k ∈ fieldnames) (keys (deref w values)) ->
   exists w',
     write self w values = (self', w', Raise ValueError) /\
     file_content w' (_fname self) = file_content w (_fname self) ++ header).
Proof.
  intros Hf Hopen fieldnames header self'.
  destruct (file_content_open _ _ _ Hopen) as [Hfc _].
  unfold write. rewrite Hf, Hopen. fold fieldnames. split.
  - intros Hall. rewrite (_dict_to_list_ok _ _ Hall). eexists.
    split; [reflexivity|]. split; [|apply length_map].
    subst header. destruct (_header_written self); cbn [negb];
      rewrite !file_content_append, Hfc, <- ?app_assoc; reflexivity.
  - intros Hnot. rewrite (_dict_to_list_extra _ _ Hnot). eexists.
    split; [reflexivity|].
    subst header. destruct (_header_written self); cbn [negb];
      rewrite ?file_content_append, Hfc, ?app_nil_r; reflexivity.
Qed.

Lemma write_checks_record_witness :
  exists w',
    write (run example_writer example_world [Assign 1 [("a", "1")]%string;
                                             Write 1]).1.1
      (assign (run example_writer example_world
                 [Assign 1 [("a", "1")]%string; Write 1]).1.2
         2 [("b", "2")]%string) 2
    = ({| _fname := example_log; _header_written := true;
          _fieldnames := Some 1%nat |}, w', Raise ValueError).
Proof.
  set (st := run example_writer example_world
               [Assign 1 [("a", "1")]%string; Write 1]).
  set (w := assign st.1.2 2 [("b", "2")]%string).
  destruct (Os.open_append w example_log) as [w1|e] eqn:Hopen;
    [|discriminate Hopen].
  destruct (write_checks_record st.1.1 w w1 2 1 eq_refl Hopen) as [_ H].
  assert (Hnot : ~ Forall (fun k => k ∈ keys (deref w 1)) (keys (deref w 2))).
  { intros Hall. apply Forall_inv in Hall.
    apply list_elem_of_In in Hall. vm_compute in Hall.
    intuition discriminate. }
  destruct (H Hnot) as [w' [Hw _]]. exists w'. exact Hw.
Defined.

(** X21.  [write] appends and touches nothing else: whether it returns or
    raises, the [dict] objects, the directories and every other file are
    as before, and the earlier content of its own file is kept in front
    of what it adds. *)
Theorem write_appends_only
    (self self' : t) (w w' : world) (values : nat) (r : result unit) :
  write self w values = (self', w', r) ->
  same_except (_fname self) w w' /\
  _fname self' = _fname self /\
  exists appended,
    file_content w' (_fname self) = file_content w (_fname self) ++ appended.
Proof.
  intros Hw.
  destruct (write_appends _ _ _ _ _ _ Hw) as (Hf & app & Hfc & _).
  split; [|split; [exact Hf|eauto]].
  revert Hw. unfold write.
  destruct (Os.open_append w (_fname self)) as [w1|e] eqn:Hopen.
  - apply open_append_frame in Hopen.
    destruct (_dict_to_list _ _); destruct (_header_written self);
      cbn [negb]; intros [= <- <- <-];
      eauto using same_except_trans, append_line_frame.
  - intros [= <- <- <-]. apply same_except_refl.
Qed.

Lemma write_appends_only_witness :
  heap (write example_writer example_world 1).1.2 = heap example_world /\
  dirs (write example_writer example_world 1).1.2 = dirs example_world.
Proof.
  destruct (write example_writer example_world 1) as [[self' w'] r] eqn:E.
  destruct (write_appends_only _ _ _ _ _ _ E) as ((H1 & H2 & _) & _).
  split; assumption.
Defined.

(** Once the header is written: records with the keys of the first one,
    each bound to a new [dict] object, are all written. *)
Lemma log_events_rows (fname : string) (f : nat) (ks : list string)
    (recs : list record) :
  forall (a : nat) (w : world),
  (f < a)%nat ->
  keys (deref w f) = ks ->
  Forall (fun d => keys d = ks) recs ->
  (exists w1, Os.open_append w fname = Ok w1) ->
  exists w',
    run {| _fname := fname; _header_written := true; _fieldnames := Some f |}
      w (log_events a recs)
    = ({| _fname := fname; _header_written := true; _fieldnames := Some f |},
       w', map (fun _ => Ok ()) recs) /\
    file_content w' fname
    = file_content w fname ++ map (fun d => RowLine (row_of ks d)) recs.
Proof.
  induction recs as [|d recs IH]; intros a w Hfa Hks Hall Hopen.
  - exists w. simpl. now rewrite app_nil_r.
  - apply Forall_cons in Hall as [Hd Hall].
    cbn [log_events run].
    assert (Hda : deref (assign w a d) a = d)
      by (unfold deref, assign; cbn [heap]; now rewrite lookup_insert_eq).
    assert (Hdf : deref (assign w a d) f = deref w f)
      by (unfold deref, assign; cbn [heap];
          rewrite lookup_insert_ne; [reflexivity|lia]).
    destruct Hopen as [w1 Hopen].
    destruct (open_append_dirs w (assign w a d) w1 fname eq_refl Hopen)
      as [w1' Hopen'].
    edestruct (write_returns
                 {| _fname := fname; _header_written := true;
                    _fieldnames := Some f |} (assign w a d) w1' a Hopen')
      as (w2 & Hw & (Hh & Hdirs & _) & Hfc).
    { cbn [_fieldnames]. rewrite Hda, Hdf, Hks, Hd.
      apply Forall_forall. auto. }
    cbn [_fname _header_written _fieldnames] in Hw, Hfc.
    rewrite Hw.
    destruct (IH (S a) w2) as (w3 & Hrun & Hfc3).
    + lia.
    + unfold deref. rewrite Hh. fold (deref (assign w a d) f). congruence.
    + exact Hall.
    + apply (open_append_dirs (assign w a d) w2 w1'); assumption.
    + rewrite Hrun. exists w3. split; [reflexivity|].
      rewrite Hfc3, Hfc, Hda, Hdf, Hks. cbn [app map].
      now rewrite <- app_assoc.
Qed.

(** X22.  The logging of the training driver: a writer made by the
    constructor, whose file opens, is given one new record per iteration,
    all with the same keys in the same order.  Then every [write]
    returns, and the file gains one header row with those keys followed
    by one row per record holding the values of the record in order. *)
Theorem logging_same_keys
    (w0 w : world) (fname : string) (self : t)
    (a : nat) (ks : list string) (recs : list record) :
  __init__ w0 fname = Ok (self, w) ->
  (exists w1, Os.open_append w fname = Ok w1) ->
  recs <> [] ->
  List.NoDup ks ->
  Forall (fun d => keys d = ks) recs ->
  exists self' w',
    run self w (log_events a recs)
    = (self', w', map (fun _ => Ok ()) recs) /\
    file_content w' fname
    = file_content w fname
      ++ HeaderLine ks :: map (fun d => RowLine (map snd d)) recs.
Proof.
  intros Hinit Hopen Hne Hnd Hall.
  destruct (init_returns _ _ _ _ Hinit) as (_ & _ & _ & _ & ->).
  destruct recs as [|d recs]; [contradiction|].
  pose proof Hall as Hall0.
  apply Forall_cons in Hall as [Hd Hall].
  cbn [log_events run].
  assert (Hda : deref (assign w a d) a = d)
    by (unfold deref, assign; cbn [heap]; now rewrite lookup_insert_eq).
  destruct Hopen as [w1 Hopen].
  destruct (open_append_dirs w (assign w a d) w1 fname eq_refl Hopen)
    as [w1' Hopen'].
  edestruct (write_returns
               {| _fname := fname; _header_written := false;
                  _fieldnames := None |} (assign w a d) w1' a Hopen')
    as (w2 & Hw & (Hh & Hdirs & _) & Hfc).
  { cbn [_fieldnames]. apply Forall_forall. auto. }
  cbn [_fname _header_written _fieldnames] in Hw, Hfc.
  rewrite Hw, Hda, Hd in *.
  destruct (log_events_rows fname a ks recs (S a) w2) as (w3 & Hrun & Hfc3).
  - lia.
  - unfold deref. rewrite Hh. fold (deref (assign w a d) a). congruence.
  - exact Hall.
  - apply (open_append_dirs (assign w a d) w2 w1'); assumption.
  - rewrite Hrun. do 2 eexists. split; [reflexivity|].
    rewrite Hfc3, Hfc. cbn [app map]. rewrite <- app_assoc. cbn [app].
    change (file_content (assign w a d) fname) with (file_content w fname).
    f_equal. f_equal. f_equal.
    + f_equal. rewrite <- Hd. rewrite <- Hd in Hnd. now apply row_of_self.
    + apply map_ext_in. intros d' Hd'. f_equal.
      rewrite Forall_forall in Hall. apply list_elem_of_In in Hd'.
      specialize (Hall d' Hd').
      rewrite <- Hall. rewrite <- Hall in Hnd. now apply row_of_self.
Qed.

Lemma logging_same_keys_witness :
  exists self' w',
    run example_writer example_world
      (log_events 0 [[("iteration", "1"); ("step", "100")];
                     [("iteration", "2"); ("step", "200")]]%string)
    = (self', w', [Ok (); Ok ()]) /\
    file_content w' example_log
    = file_content example_world example_log
      ++ [HeaderLine ["iteration"; "step"]%string;
          RowLine ["1"; "100"]%string; RowLine ["2"; "200"]%string].
Proof.
  apply (logging_same_keys empty_world example_world example_log example_writer
           0 ["iteration"; "step"]%string
           [[("iteration", "1"); ("step", "100")];
            [("iteration", "2"); ("step", "200")]]%string).
  - reflexivity.
  - eexists. reflexivity.
  - discriminate.
  - apply NoDup_ListNoDup, (bool_decide_unpack _). by vm_compute.
  - repeat constructor.
Defined.

(** X23.  Logging is resumed with a second header: a new writer for a
    file that writers before it wrote to adds its header again.  Two
    writers for the same file, each with at least one call of [write] and
    all calls returning, leave two header rows, each followed by the data
    rows of its writer. *)
Theorem restart_repeats_header
    (fname : string) (w w1 w2 : world) (evs1 evs2 : list event)
    (s1 s2 : t) (outs1 outs2 : list (result unit)) :
  run {| _fname := fname; _header_written := false; _fieldnames := None |}
    w evs1 = (s1, w1, outs1) ->
  outs1 <> [] -> forallb is_ok outs1 = true ->
  run {| _fname := fname; _header_written := false; _fieldnames := None |}
    w1 evs2 = (s2, w2, outs2) ->
  outs2 <> [] -> forallb is_ok outs2 = true ->
  exists h1 rows1 h2 rows2,
    file_content w2 fname
    = file_content w fname
      ++ (HeaderLine h1 :: map RowLine rows1)
      ++ (HeaderLine h2 :: map RowLine rows2) /\
    first_record_keys w evs1 = Some h1 /\
    first_record_keys w1 evs2 = Some h2 /\
    length rows1 = length outs1 /\ length rows2 = length outs2 /\
    length (header_rows ((HeaderLine h1 :: map RowLine rows1)
                         ++ (HeaderLine h2 :: map RowLine rows2))) = 2%nat.
Proof.
  intros Hrun1 Hne1 Hok1 Hrun2 Hne2 Hok2.
  destruct (run_new_writer evs1
              {| _fname := fname; _header_written := false; _fieldnames := None |}
              _ _ _ _ eq_refl eq_refl Hrun1 Hne1 Hok1)
    as (h1 & rows1 & Hfc1 & Hk1 & Hl1).
  destruct (run_new_writer evs2
              {| _fname := fname; _header_written := false; _fieldnames := None |}
              _ _ _ _ eq_refl eq_refl Hrun2 Hne2 Hok2)
    as (h2 & rows2 & Hfc2 & Hk2 & Hl2).
  cbn [_fname] in Hfc1, Hfc2.
  exists h1, rows1, h2, rows2. rewrite Hfc2, Hfc1, <- app_assoc.
  repeat split; auto.
  rewrite header_rows_app. unfold header_rows at 1 2.
  cbn [List.filter is_header].
  fold (header_rows (map RowLine rows1)). fold (header_rows (map RowLine rows2)).
  now rewrite !header_rows_rows.
Qed.

Lemma restart_repeats_header_witness :
  exists h1 rows1 h2 rows2,
    file_content
      (run example_writer
         (run example_writer example_world consistent_events).1.2
         consistent_events).1.2 example_log
    = file_content example_world example_log
      ++ (HeaderLine h1 :: map RowLine rows1)
      ++ (HeaderLine h2 :: map RowLine rows2) /\
    length (header_rows ((HeaderLine h1 :: map RowLine rows1)
                         ++ (HeaderLine h2 :: map RowLine rows2))) = 2%nat.
Proof.
  destruct (run example_writer example_world consistent_events)
    as [[s1 w1] outs1] eqn:E1.
  cbn [fst snd].
  destruct (run example_writer w1 consistent_events)
    as [[s2 w2] outs2] eqn:E2.
  cbn [fst snd].
  assert (H1 : outs1 = [Ok (); Ok ()])
    by (change outs1 with (s1, w1, outs1).2; now rewrite <- E1).
  assert (H2 : outs2 = [Ok (); Ok ()]).
  { change outs2 with (s2, w2, outs2).2. rewrite <- E2.
    change w1 with (s1, w1, outs1).1.2. now rewrite <- E1. }
  assert (Hne1 : outs1 <> []) by (rewrite H1; discriminate).
  assert (Hne2 : outs2 <> []) by (rewrite H2; discriminate).
  assert (Hok1 : forallb is_ok outs1 = true) by (rewrite H1; reflexivity).
  assert (Hok2 : forallb is_ok outs2 = true) by (rewrite H2; reflexivity).
  destruct (restart_repeats_header example_log example_world w1 w2
              consistent_events consistent_events s1 s2 outs1 outs2
              E1 Hne1 Hok1 E2 Hne2 Hok2)
    as (h1 & rows1 & h2 & rows2 & Hfc & _ & _ & _ & _ & Hh).
  exists h1, rows1, h2, rows2. split; [exact Hfc | exact Hh].
Defined.

(** X24.  The constructor can be repeated: when [CsvWriter(fname)]
    returns, it has written to no file and changed no [dict] object, the
    directories that existed still exist, and a second [CsvWriter(fname)]
    returns the same writer and leaves the world as it is, since the
    directory is made only when it does not exist. *)
Theorem init_repeatable (w w' : world) (fname : string) (self : t) :
  __init__ w fname = Ok (self, w') ->
  files w' = files w /\ heap w' = heap w /\ dirs w ⊆ dirs w' /\
  __init__ w' fname = Ok (self, w').
Proof.
  intros Hinit.
  destruct (init_returns _ _ _ _ Hinit) as (_ & Hex & _ & Hf & ->).
  split; [exact Hf|].
  assert (Hw : heap w' = heap w /\ dirs w ⊆ dirs w').
  { revert Hinit. unfold __init__.
    destruct (Os.exists_ w (Os.dirname fname)); cbn [negb].
    - rewrite bind_Ok. intros [= <-]. split; [reflexivity|set_solver].
    - unfold Os.makedirs.
      repeat match goal with
             | |- context [if ?b then _ else _] => destruct b
             end; try discriminate.
      rewrite bind_Ok. intros [= <-]. cbn [heap dirs].
      split; [reflexivity|set_solver]. }
  destruct Hw as [Hh Hd]. split; [exact Hh|]. split; [exact Hd|].
  unfold __init__. now rewrite Hex.
Qed.

Lemma init_repeatable_witness :
  __init__ example_world example_log = Ok (example_writer, example_world).
Proof.
  apply (init_repeatable empty_world example_world example_log example_writer).
  reflexivity.
Defined.

End CsvWriterMore.
